(** * Dashboard de Ventas PRO: the filter / comparison-period / KPI / delta core

    A shallow embedding of the computational part of [app.py]: the helpers
    [fmt_moneda], [delta_pct] and [periodo_anterior], the main filter of
    section 6 and the KPI block of section 8, together with the fragments of
    the Python and pandas run-time they rest on (proleptic Gregorian dates,
    binary64 arithmetic, fixed-point float formatting). *)

From Stdlib Require Import ZArith Lia Bool List String Ascii.
From Stdlib Require Import SpecFloat.
From Stdlib Require DecimalString.
From stdpp Require Import base list strings gmap.

Local Open Scope Z_scope.

(** ** Calendar dates (module [datetime])

    A [datetime.date] carries the three fields year, month, day.  The
    conversion to and from proleptic Gregorian ordinals follows
    [datetime.py]: [_ymd2ord] and [_ord2ymd]. *)

Module Calendar.

Record date := mkdate { year : Z; month : Z; day : Z }.

Definition DAYS_IN_MONTH : list Z :=
  [-1; 31; 28; 31; 30; 31; 30; 31; 31; 30; 31; 30; 31].

Definition DAYS_BEFORE_MONTH : list Z :=
  [-1; 0; 31; 59; 90; 120; 151; 181; 212; 243; 273; 304; 334].

Definition table (t : list Z) (i : Z) : Z := nth (Z.to_nat i) t (-1).

Definition is_leap (y : Z) : bool :=
  (y mod 4 =? 0) && (negb (y mod 100 =? 0) || (y mod 400 =? 0)).

Definition days_before_year (y : Z) : Z :=
  let y := y - 1 in y * 365 + y / 4 - y / 100 + y / 400.

Definition days_in_month (y m : Z) : Z :=
  if (m =? 2) && is_leap y then 29 else table DAYS_IN_MONTH m.

Definition days_before_month (y m : Z) : Z :=
  table DAYS_BEFORE_MONTH m + (if (2 <? m) && is_leap y then 1 else 0).

Definition ymd2ord (y m d : Z) : Z :=
  days_before_year y + days_before_month y m + d.

Definition DI400Y : Z := 146097.
Definition DI100Y : Z := 36524.
Definition DI4Y : Z := 1461.

Definition ord2ymd (n : Z) : date :=
  let n := n - 1 in
  let n400 := n / DI400Y in
  let n := n mod DI400Y in
  let y := n400 * 400 + 1 in
  let n100 := n / DI100Y in
  let n := n mod DI100Y in
  let n4 := n / DI4Y in
  let n := n mod DI4Y in
  let n1 := n / 365 in
  let n := n mod 365 in
  let y := y + (n100 * 100 + n4 * 4 + n1) in
  if (n1 =? 4) || (n100 =? 4) then mkdate (y - 1) 12 31
  else
    let leapyear := (n1 =? 3) && (negb (n4 =? 24) || (n100 =? 3)) in
    let m := Z.shiftr (n + 50) 5 in
    let preceding :=
      table DAYS_BEFORE_MONTH m + (if (2 <? m) && leapyear then 1 else 0) in
    if n <? preceding then
      let m := m - 1 in
      let preceding :=
        preceding
        - (table DAYS_IN_MONTH m + (if (m =? 2) && leapyear then 1 else 0)) in
      mkdate y m (n - preceding + 1)
    else mkdate y m (n - preceding + 1).

(** [date.toordinal] and [date.fromordinal]. *)
Definition toordinal (d : date) : Z := ymd2ord (year d) (month d) (day d).
Definition fromordinal (n : Z) : date := ord2ymd n.

(** The check made by the [date] constructor, without the upper bound
    [MAXYEAR] on the year (which plays no role below). *)
Definition valid (d : date) : Prop :=
  1 <= month d <= 12 /\ 1 <= day d <= days_in_month (year d) (month d).

(** Comparison of dates is comparison of the triples (year, month, day). *)
Definition date_leb (a b : date) : bool :=
  (year a <? year b)
  || ((year a =? year b)
      && ((month a <? month b)
          || ((month a =? month b) && (day a <=? day b)))).

(** Strict order on the triples, and two auxiliaries of the proofs: the
    extra day of a leap year and the month/day tail of [ord2ymd]. *)
Definition date_lt (a b : date) : Prop :=
  year a < year b
  \/ (year a = year b
      /\ (month a < month b \/ (month a = month b /\ day a < day b))).

Definition leap_extra (leap : bool) : Z := if leap then 1 else 0.

Definition month_day (leapyear : bool) (y n : Z) : date :=
  let m := Z.shiftr (n + 50) 5 in
  let preceding :=
    table DAYS_BEFORE_MONTH m + (if (2 <? m) && leapyear then 1 else 0) in
  if n <? preceding then
    let m := m - 1 in
    let preceding :=
      preceding
      - (table DAYS_IN_MONTH m + (if (m =? 2) && leapyear then 1 else 0)) in
    mkdate y m (n - preceding + 1)
  else mkdate y m (n - preceding + 1).

End Calendar.

Import Calendar.

(** ** Binary64 numbers

    Python's [float] and numpy's [float64] are IEEE 754 binary64.  They are
    represented by [spec_float] with precision 53 and maximal exponent 1024,
    whose operations round to nearest, ties to even. *)

Module Float64.

Definition prec : Z := 53.
Definition emax : Z := 1024.

Definition float : Type := spec_float.

Definition zero : float := S754_zero false.
Definition nan : float := S754_nan.

Definition add : float -> float -> float := SFadd prec emax.
Definition sub : float -> float -> float := SFsub prec emax.
Definition mul : float -> float -> float := SFmul prec emax.
Definition div : float -> float -> float := SFdiv prec emax.

Definition eqb : float -> float -> bool := SFeqb.
Definition leb : float -> float -> bool := SFleb.

Definition is_nan (f : float) : bool :=
  match f with S754_nan => true | _ => false end.

(** The nearest binary64 number of an integer. *)
Definition of_Z (z : Z) : float := binary_normalize prec emax z 0 false.

(** An integer as the unrounded pair (mantissa, exponent 0). *)
Definition exact_Z (z : Z) : float :=
  match z with
  | Z0 => S754_zero false
  | Zpos p => S754_finite false p 0
  | Zneg p => S754_finite true p 0
  end.

(** Integers from this magnitude on round to an infinity. *)
Definition overflow_threshold : Z := 2 ^ 1024 - 2 ^ 970.

End Float64.

Import Float64.

(** ** Python values, exceptions and the arithmetic used by [delta_pct] *)

Inductive value :=
  | VNone
  | VInt (z : Z)
  | VFloat (f : float).

Inductive exn :=
  | TypeError
  | ZeroDivisionError
  | OverflowError
  | IndexingError
  | NameError.

Inductive result (A : Type) :=
  | Ok (a : A)
  | Raise (e : exn).

Arguments Ok {A} a.
Arguments Raise {A} e.

Definition bind {A B} (c : result A) (k : A -> result B) : result B :=
  match c with
  | Ok a => k a
  | Raise e => Raise e
  end.

Notation "'let*' x ':=' c 'in' k" := (bind c (fun x => k))
  (at level 10, x name, c at level 100, k at level 200).

(** [float(z)]: correctly rounded, [OverflowError] when out of range. *)
Definition float_of_int (z : Z) : result float :=
  if overflow_threshold <=? Z.abs z then Raise OverflowError
  else Ok (of_Z z).

(** [a - b] *)
Definition py_sub (a b : value) : result value :=
  match a, b with
  | VInt x, VInt y => Ok (VInt (x - y))
  | VInt x, VFloat g => let* f := float_of_int x in Ok (VFloat (sub f g))
  | VFloat f, VInt y => let* g := float_of_int y in Ok (VFloat (sub f g))
  | VFloat f, VFloat g => Ok (VFloat (sub f g))
  | _, _ => Raise TypeError
  end.

(** [a / b].  The quotient of two integers is the correctly rounded exact
    quotient; float operands follow IEEE 754 as numpy scalars do. *)
Definition py_truediv (a b : value) : result value :=
  match a, b with
  | VInt x, VInt y =>
      if y =? 0 then Raise ZeroDivisionError
      else if overflow_threshold * Z.abs y <=? Z.abs x then Raise OverflowError
      else Ok (VFloat (div (exact_Z x) (exact_Z y)))
  | VInt x, VFloat g => let* f := float_of_int x in Ok (VFloat (div f g))
  | VFloat f, VInt y => let* g := float_of_int y in Ok (VFloat (div f g))
  | VFloat f, VFloat g => Ok (VFloat (div f g))
  | _, _ => Raise TypeError
  end.

(** [a * b] *)
Definition py_mul (a b : value) : result value :=
  match a, b with
  | VInt x, VInt y => Ok (VInt (x * y))
  | VInt x, VFloat g => let* f := float_of_int x in Ok (VFloat (mul f g))
  | VFloat f, VInt y => let* g := float_of_int y in Ok (VFloat (mul f g))
  | VFloat f, VFloat g => Ok (VFloat (mul f g))
  | _, _ => Raise TypeError
  end.

(** [x in (0, None)]: [x] is or equals one of the two members. *)
Definition in_0_None (x : value) : bool :=
  match x with
  | VNone => true
  | VInt z => z =? 0
  | VFloat f => eqb f zero
  end.

(** [pd.isna] on a scalar. *)
Definition pd_isna (x : value) : bool :=
  match x with
  | VNone => true
  | VInt _ => false
  | VFloat f => is_nan f
  end.

(** ** Fixed-point formatting of floats: [format(x, ",.{dec}f")]

    The digits are those of the exact value of the float, rounded half to
    even at [dec] decimals.  The two separators are parameters: Python's
    format uses [","] between groups of three integer digits and ["."] before
    the decimals. *)

Definition digit (n : Z) : ascii := ascii_of_nat (48 + Z.to_nat n).

(** The [w] low-order decimal digits of [n], most significant first. *)
Fixpoint digits_fixed (w : nat) (n : Z) : string :=
  match w with
  | O => EmptyString
  | S w' =>
      (digits_fixed w' (n / 10) ++ String (digit (n mod 10)) EmptyString)%string
  end.

(** The decimal digits of a non-negative integer, without leading zeros. *)
Definition digits (n : Z) : string :=
  DecimalString.NilZero.string_of_uint (N.to_uint (Z.to_N n)).

(** A separator before every group of three digits, counted from the right. *)
Fixpoint group3 (sep : ascii) (s : string) : string :=
  match s with
  | EmptyString => EmptyString
  | String c s' =>
      String c
        (if negb (Nat.eqb (String.length s') 0)
            && Nat.eqb (String.length s' mod 3) 0
         then String sep (group3 sep s')
         else group3 sep s')
  end.

(** [m * 2^e * 10^dec] rounded to the nearest integer, ties to even. *)
Definition scaled_round (m : positive) (e : Z) (dec : nat) : Z :=
  let num := Zpos m * 10 ^ Z.of_nat dec in
  if 0 <=? e then num * 2 ^ e
  else
    let den := 2 ^ (- e) in
    let q := num / den in
    let r := num mod den in
    if (den <? 2 * r) || ((den =? 2 * r) && Z.odd q) then q + 1 else q.

Definition sign_str (s : bool) : string := if s then "-"%string else ""%string.

Definition fixed_str (grp pt : ascii) (n : Z) (dec : nat) : string :=
  (group3 grp (digits (n / 10 ^ Z.of_nat dec))
   ++ match dec with
      | O => ""
      | S _ => String pt (digits_fixed dec (n mod 10 ^ Z.of_nat dec))
      end)%string.

Definition format_f (grp pt : ascii) (f : float) (dec : nat) : string :=
  match f with
  | S754_nan => "nan"%string
  | S754_infinity s => (sign_str s ++ "inf")%string
  | S754_zero s => (sign_str s ++ fixed_str grp pt 0 dec)%string
  | S754_finite s m e =>
      (sign_str s ++ fixed_str grp pt (scaled_round m e dec) dec)%string
  end.

(** [("{:,." + str(dec) + "f}").format(x)] *)
Definition py_format (x : value) (dec : nat) : result string :=
  match x with
  | VNone => Raise TypeError
  | VInt z => let* f := float_of_int z in Ok (format_f "," "." f dec)
  | VFloat f => Ok (format_f "," "." f dec)
  end.

(** [s.replace(old, new)] for one-character [old] and [new]. *)
Fixpoint replace (old new : ascii) (s : string) : string :=
  match s with
  | EmptyString => EmptyString
  | String c s' =>
      String (if Ascii.eqb c old then new else c) (replace old new s')
  end.

(** ** Section 2 of the script: the helpers *)

(** [fmt_moneda(x, dec=0)] *)
Definition fmt_moneda (x : value) (dec : nat) : result string :=
  if pd_isna x then Ok "—"%string
  else
    let* s := py_format x dec in
    Ok ("$" ++ replace "X" "." (replace "." "," (replace "," "X" s)))%string.

(** [delta_pct(actual, pasado)] *)
Definition delta_pct (actual pasado : value) : result value :=
  if in_0_None pasado || pd_isna pasado then Ok (VFloat nan)
  else
    let* d := py_sub actual pasado in
    let* q := py_truediv d pasado in
    py_mul q (VInt 100).


(** ** Timestamps and data frames (pandas)

    Every timestamp of the script is a midnight: the column [Fecha] is drawn
    from a daily [date_range], and [pd.to_datetime] is applied to dates.  A
    [Timestamp] is therefore represented by the ordinal of its day. *)

Definition Timestamp : Type := Z.

(** [pd.to_datetime(d)] for a [datetime.date]. *)
Definition to_datetime (d : date) : Timestamp := toordinal d.

(** [ts.date()], the element-wise operation of [Series.dt.date]. *)
Definition dt_date (ts : Timestamp) : date := fromordinal ts.

(** [ts - pd.Timedelta(days=n)] *)
Definition sub_days (ts : Timestamp) (n : Z) : Timestamp := ts - n.

(** [(a - b).days] *)
Definition days_between (a b : Timestamp) : Z := a - b.

(** [ts - pd.DateOffset(years=n)]: the year field is decreased and the day
    is clipped to the length of the resulting month. *)
Definition sub_years (ts : Timestamp) (n : Z) : Timestamp :=
  let d := dt_date ts in
  let y := year d - n in
  ymd2ord y (month d) (Z.min (day d) (days_in_month y (month d))).

(** One row of the frame built by [get_data]. *)
Record Row := mkRow {
  Fecha : Timestamp;
  Categoría : string;
  Región : string;
  Ventas : float
}.

(** A frame is the sequence of its rows, each under its index label. *)
Definition DataFrame : Type := list (nat * Row).

Definition index (df : DataFrame) : list nat := map fst df.

(** [df[name]]: the values of one column, in row order. *)
Definition column {A} (f : Row -> A) (df : DataFrame) : list A :=
  map (fun r => f (snd r)) df.

(** [pd.DataFrame({...})]: rows labelled by a [RangeIndex]. *)
Definition DataFrame_of_rows (rows : list Row) : DataFrame :=
  combine (seq 0 (List.length rows)) rows.

(** [a & b] on boolean series over the same index. *)
Definition series_and (a b : list bool) : list bool :=
  map (fun p => andb (fst p) (snd p)) (combine a b).

(** [s.isin(values)] *)
Definition isin (s : list string) (values : list string) : list bool :=
  map (fun x => bool_decide (x ∈ values)) s.

(** [df[mask]]: the rows whose mask entry is [True]; a mask that does not
    cover the frame is rejected. *)
Fixpoint select (df : DataFrame) (mask : list bool) : DataFrame :=
  match df, mask with
  | r :: df', b :: mask' =>
      if b then r :: select df' mask' else select df' mask'
  | _, _ => []
  end.

Definition getitem_mask (df : DataFrame) (mask : list bool) : result DataFrame :=
  if Nat.eqb (List.length mask) (List.length df) then Ok (select df mask)
  else Raise IndexingError.

(** [df.copy()]: a new frame with the same rows and labels. *)
Definition copy (df : DataFrame) : DataFrame := df.

(** [ndarray.sum()] on a contiguous float64 array: numpy's [pairwise_sum]
    (umath/loops_utils.h.src).  Fewer than eight values are added from left
    to right, starting from [-0.0]; up to [PW_BLOCKSIZE] values go through
    eight accumulators [r[0..7]], taken from the first eight values, to which
    each further group of eight is added, combined as
    [((r0+r1)+(r2+r3))+((r4+r5)+(r6+r7))], the remaining values being added
    to the result one by one; a longer array is cut at [n/2] rounded down to
    a multiple of eight, and the sums of the two parts are added. *)
Definition neg_zero : float := S754_zero true.

Definition PW_BLOCKSIZE : nat := 128.

Record acc8 := mkacc8 {
  r0 : float; r1 : float; r2 : float; r3 : float;
  r4 : float; r5 : float; r6 : float; r7 : float
}.

Fixpoint unrolled (r : acc8) (a : list float) : acc8 * list float :=
  match a with
  | x0 :: x1 :: x2 :: x3 :: x4 :: x5 :: x6 :: x7 :: a' =>
      unrolled (mkacc8 (add (r0 r) x0) (add (r1 r) x1) (add (r2 r) x2)
                       (add (r3 r) x3) (add (r4 r) x4) (add (r5 r) x5)
                       (add (r6 r) x6) (add (r7 r) x7)) a'
  | _ => (r, a)
  end.

Definition sum_small (a : list float) : float := fold_left add a neg_zero.

Definition sum_block (a : list float) : float :=
  match a with
  | x0 :: x1 :: x2 :: x3 :: x4 :: x5 :: x6 :: x7 :: a' =>
      let '(r, rest) := unrolled (mkacc8 x0 x1 x2 x3 x4 x5 x6 x7) a' in
      let res := add (add (add (r0 r) (r1 r)) (add (r2 r) (r3 r)))
                     (add (add (r4 r) (r5 r)) (add (r6 r) (r7 r))) in
      fold_left add rest res
  | _ => sum_small a
  end.

(** The recursion halves the array, so a depth of [length a] is never
    exhausted ([pairwise_sum_depth] below). *)
Fixpoint pairwise_sum_rec (depth : nat) (a : list float) : float :=
  let n := List.length a in
  if (n <? 8)%nat then sum_small a
  else if (n <=? PW_BLOCKSIZE)%nat then sum_block a
  else
    match depth with
    | O => sum_block a
    | S depth' =>
        let n2 := (n / 2 - (n / 2) mod 8)%nat in
        add (pairwise_sum_rec depth' (firstn n2 a))
            (pairwise_sum_rec depth' (skipn n2 a))
    end.

Definition pairwise_sum (a : list float) : float :=
  pairwise_sum_rec (List.length a) a.

(** [np.add.reduce]: an empty array gives the identity [0.0]; otherwise the
    pairwise sum is added to the start value [-0.0] (older versions of numpy
    start from [0.0], which differs only when every value is [-0.0]). *)
Definition ndarray_sum (a : list float) : float :=
  match a with
  | [] => zero
  | _ => add neg_zero (pairwise_sum a)
  end.

(** [s.sum()] (pandas' [nansum]): missing values count as zero, and the
    values are summed by numpy. *)
Definition fillna0 (f : float) : float := if is_nan f then zero else f.

Definition Series_sum (s : list float) : float :=
  ndarray_sum (map fillna0 s).

(** [s.mean()] (pandas' [nanmean]): that sum over the number of values that
    are not missing, [NaN] when there is none. *)
Definition Series_count (s : list float) : nat :=
  List.length (List.filter (fun f => negb (is_nan f)) s).

Definition Series_mean (s : list float) : float :=
  match Series_count s with
  | O => nan
  | S _ as c => div (Series_sum s) (of_Z (Z.of_nat c))
  end.

(** [periodo_anterior(df, rango, modo="dias")]: first the bounds
    [(ini_prev, fin_prev)], then the selection. *)
Definition ventana_anterior (rango : date * date) (modo : string)
  : Timestamp * Timestamp :=
  let ini := to_datetime (fst rango) in
  let fin := to_datetime (snd rango) in
  if String.eqb modo "dias" then
    let dias := days_between fin ini + 1 in
    let fin_prev := sub_days ini 1 in
    let ini_prev := sub_days fin_prev (dias - 1) in
    (ini_prev, fin_prev)
  else
    let ini_prev := sub_years ini 1 in
    let fin_prev := sub_years fin 1 in
    (ini_prev, fin_prev).

Definition periodo_anterior (df : DataFrame) (rango : date * date)
    (modo : string) : result DataFrame :=
  let '(ini_prev, fin_prev) := ventana_anterior rango modo in
  getitem_mask df
    (series_and (map (fun t => ini_prev <=? t) (column Fecha df))
                (map (fun t => t <=? fin_prev) (column Fecha df))).

(** ** Section 6 of the script: the main filter *)

(** The boolean mask of the selection. *)
Definition mascara (df_full : DataFrame) (rango : date * date)
    (regiones categorias : list string) : list bool :=
  let fechas := map dt_date (column Fecha df_full) in
  series_and
    (series_and
       (series_and
          (map (fun d => date_leb (fst rango) d) fechas)
          (map (fun d => date_leb d (snd rango)) fechas))
       (isin (column Región df_full) regiones))
    (isin (column Categoría df_full) categorias).

(** [df = df_full[mask].copy()] on frames as values. *)
Definition filtrado_principal (df_full : DataFrame) (rango : date * date)
    (regiones categorias : list string) : result DataFrame :=
  let* sel :=
    getitem_mask df_full (mascara df_full rango regiones categorias) in
  Ok (copy sel).

(** The same statement on a store of frame objects: indexing by a mask
    builds a new object, and so does [.copy()]; the variable [df] is bound to
    the latter.  The name [df_full] stays bound to its object. *)
Definition store : Type := gmap nat DataFrame.

Definition alloc (df : DataFrame) (h : store) : nat * store :=
  let l := fresh (dom h) in (l, <[l := df]> h).

Definition filtrado_principal_store (h : store) (df_full : nat)
    (rango : date * date) (regiones categorias : list string)
  : result (nat * store) :=
  match h !! df_full with
  | None => Raise NameError
  | Some full =>
      let* sel :=
        getitem_mask full (mascara full rango regiones categorias) in
      let '(l_sel, h1) := alloc sel h in
      let '(l_df, h2) := alloc (copy sel) h1 in
      Ok (l_df, h2)
  end.

(** ** Section 8 of the script: KPIs and comparison *)

Record KPIs := mkKPIs {
  tot : value;
  avg : value;
  cnt : value;
  prev_df : option DataFrame;
  prev_tot : value;
  prev_avg : value;
  prev_cnt : value;
  pct_tot : value;
  pct_avg : value;
  pct_cnt : value
}.

(** [df.shape[0]] *)
Definition shape0 (df : DataFrame) : value := VInt (Z.of_nat (List.length df)).

(** [df["Ventas"].sum(), df["Ventas"].mean(), df.shape[0]] *)
Definition agregados (df : DataFrame) : value * value * value :=
  (VFloat (Series_sum (column Ventas df)),
   VFloat (Series_mean (column Ventas df)),
   shape0 df).

(** The conditional that binds [prev_df], [prev_tot], [prev_avg] and
    [prev_cnt]; [prev_df] stays unbound without comparison. *)
Definition comparacion (df_full : DataFrame) (rango : date * date)
    (modo_comp : string)
  : result (option DataFrame * (value * value * value)) :=
  if negb (String.eqb modo_comp "Sin comparación") then
    let modo_calc :=
      if String.eqb modo_comp "Periodo anterior" then "dias"%string
      else "anio"%string in
    let* prev_df := periodo_anterior df_full rango modo_calc in
    Ok (Some prev_df, agregados prev_df)
  else Ok (None, (VFloat nan, VFloat nan, VFloat nan)).

Definition kpis (df_full df : DataFrame) (rango : date * date)
    (modo_comp : string) : result KPIs :=
  let '(tot, avg, cnt) := agregados df in
  let* prev := comparacion df_full rango modo_comp in
  let '(prev_df, (prev_tot, prev_avg, prev_cnt)) := prev in
  let* pct_tot := delta_pct tot prev_tot in
  let* pct_avg := delta_pct avg prev_avg in
  let* pct_cnt := delta_pct cnt prev_cnt in
  Ok (mkKPIs tot avg cnt prev_df prev_tot prev_avg prev_cnt
        pct_tot pct_avg pct_cnt).

(** Sections 6 and 8 in sequence: one recomputation pass. *)
Definition dashboard (df_full : DataFrame) (rango : date * date)
    (regiones categorias : list string) (modo_comp : string)
  : result (DataFrame * KPIs) :=
  let* df := filtrado_principal df_full rango regiones categorias in
  let* k := kpis df_full df rango modo_comp in
  Ok (df, k).

(** ** Notions of the specification

    The definitions below follow the wording of the specification; the
    theorems compare them with the script. *)

(** A float that compares [>= 0]: the condition on every generated amount. *)
Definition nonneg (f : float) : Prop := leb zero f = true.

Definition sign_free (f : float) : Prop :=
  match f with
  | S754_zero _ => True
  | S754_infinity s => s = false
  | S754_nan => False
  | S754_finite s _ _ => s = false
  end.

(** The filter predicate: a record is included iff its date lies in the
    range and its category and region are selected. *)
Definition incluido (rango : date * date) (regiones categorias : list string)
    (r : Row) : Prop :=
  date_leb (fst rango) (dt_date (Fecha r)) = true
  /\ date_leb (dt_date (Fecha r)) (snd rango) = true
  /\ Categoría r ∈ categorias
  /\ Región r ∈ regiones.

Definition incluido_b (rango : date * date) (regiones categorias : list string)
    (x : nat * Row) : bool :=
  date_leb (fst rango) (dt_date (Fecha (snd x)))
  && date_leb (dt_date (Fecha (snd x))) (snd rango)
  && bool_decide (Región (snd x) ∈ regiones)
  && bool_decide (Categoría (snd x) ∈ categorias).

(** A record's date lies in a window of timestamps. *)
Definition en_ventana (w : Timestamp * Timestamp) (x : nat * Row) : bool :=
  (fst w <=? Fecha (snd x)) && (Fecha (snd x) <=? snd w).

(** The amounts added one after the other, in row order. *)
Definition suma (amounts : list float) : float := fold_left add amounts zero.

(** A sum of the amounts: every amount enters once, the binary64 additions
    being taken in any order and with any grouping, as a block-wise or
    pairwise summation makes them. *)
Inductive suma_de : list float -> float -> Prop :=
  | suma_vacia : suma_de [] zero
  | suma_uno x : suma_de [x] x
  | suma_mas l1 l2 a b :
      suma_de l1 a -> suma_de l2 b -> suma_de (l1 ++ l2) (add a b)
  | suma_perm l l' a : Permutation l l' -> suma_de l a -> suma_de l' a.

(** The eight accumulators hold sums of disjoint parts of what was read. *)
Definition acc_list (r : acc8) : list float :=
  [r0 r; r1 r; r2 r; r3 r; r4 r; r5 r; r6 r; r7 r].

Definition acc_de (leido : list float) (r : acc8) : Prop :=
  exists ls, Forall2 suma_de ls (acc_list r) /\ Permutation (concat ls) leido.

(** The exact sum of whole numbers. *)
Definition suma_Z (ks : list Z) : Z := fold_right Z.add 0 ks.

(** Subtraction of one calendar year from a date: the same month and day of
    the year before, the 29th of February falling back on the 28th. *)
Definition un_anio_antes (d : date) : date :=
  mkdate (year d - 1) (month d)
    (Z.min (day d) (days_in_month (year d - 1) (month d))).

(** The signed percentage change [(current - prior) / prior * 100] of two
    numbers: integers are subtracted exactly and their quotient is rounded
    once; otherwise the operations are those of binary64. *)
Definition as_float (v : value) : float :=
  match v with
  | VNone => nan
  | VInt z => of_Z z
  | VFloat f => f
  end.

Definition porcentaje (actual pasado : value) : float :=
  match actual, pasado with
  | VInt a, VInt p => mul (div (exact_Z (a - p)) (exact_Z p)) (of_Z 100)
  | _, _ =>
      mul (div (sub (as_float actual) (as_float pasado)) (as_float pasado))
          (of_Z 100)
  end.

(** Integers of machine size, such as row counts. *)
Definition machine_int (v : value) : Prop :=
  match v with
  | VInt z => - 2 ^ 63 <= z < 2 ^ 63
  | _ => True
  end.

(** A prior value for which no change can be computed. *)
Definition sin_referencia (pasado : value) : Prop :=
  pasado = VNone \/ pasado = VInt 0
  \/ (exists s, pasado = VFloat (S754_zero s)) \/ pasado = VFloat nan.

(** The rendering asked of the formatter: ["."] between groups of three
    integer digits and [","] before the decimals. *)
Definition formato_es (f : float) (dec : nat) : string :=
  format_f "." "," f dec.

(** Auxiliaries of the proofs about the formatter. *)
Definition is_digit (c : ascii) : bool :=
  (48 <=? nat_of_ascii c)%nat && (nat_of_ascii c <=? 57)%nat.

Fixpoint all_digits (s : string) : bool :=
  match s with
  | EmptyString => true
  | String c s' => is_digit c && all_digits s'
  end.

(** The three replacements of [fmt_moneda], in the order of the script. *)
Definition intercambio (s : string) : string :=
  replace "X" "." (replace "." "," (replace "," "X" s)).

(** ** Sample data for the examples *)

Definition d (y m dd : Z) : date := mkdate y m dd.

Definition filas_ejemplo : list Row :=
  [ mkRow (to_datetime (d 2025 6 3)) "Ropa" "Norte" (of_Z 100);
    mkRow (to_datetime (d 2025 5 25)) "Hogar" "Sur" (of_Z 250);
    mkRow (to_datetime (d 2025 6 9)) "Hogar" "Norte" (of_Z 50);
    mkRow (to_datetime (d 2024 6 5)) "Ropa" "Sur" (of_Z 75) ].

Definition df_ejemplo : DataFrame := DataFrame_of_rows filas_ejemplo.

Definition rango_ejemplo : date * date := (d 2025 6 1, d 2025 6 10).

(** An amount of [c] hundredths, as [round(2)] leaves it. *)
Definition centimos (c : Z) : float := div (of_Z c) (of_Z 100).

Definition filas_ocho : list Row :=
  [ mkRow (to_datetime (d 2025 6 1)) "Ropa" "Norte" (centimos 116870);
    mkRow (to_datetime (d 2025 6 2)) "Hogar" "Sur" (centimos 62047);
    mkRow (to_datetime (d 2025 6 3)) "Hogar" "Norte" (centimos 18666);
    mkRow (to_datetime (d 2025 6 4)) "Ropa" "Sur" (centimos 134768);
    mkRow (to_datetime (d 2025 6 5)) "Ropa" "Norte" (centimos 108181);
    mkRow (to_datetime (d 2025 6 6)) "Hogar" "Sur" (centimos 96221);
    mkRow (to_datetime (d 2025 6 7)) "Hogar" "Norte" (centimos 105657);
    mkRow (to_datetime (d 2025 6 8)) "Ropa" "Sur" (centimos 140018) ].

Definition df_ocho : DataFrame := DataFrame_of_rows filas_ocho.
(** ** Section 5 of the script: the sidebar on its first run *)

(** [s.min()] and [s.max()] of a series of timestamps; [NaT] (here [None])
    for the empty series. *)
Definition Series_min (s : list Timestamp) : option Timestamp :=
  match s with
  | [] => None
  | t :: s' => Some (fold_left Z.min s' t)
  end.

Definition Series_max (s : list Timestamp) : option Timestamp :=
  match s with
  | [] => None
  | t :: s' => Some (fold_left Z.max s' t)
  end.

(** [s.unique()]: the distinct values in order of first appearance. *)
Fixpoint unique_from (seen s : list string) : list string :=
  match s with
  | [] => []
  | x :: s' =>
      if bool_decide (x ∈ seen) then unique_from seen s'
      else x :: unique_from (x :: seen) s'
  end.

Definition unique (s : list string) : list string := unique_from [] s.

(** The widgets before any interaction: the date input holds
    [(dmin, dmax)] as dates, both multiselects hold every value of their
    column, and the radio holds its first option.  Without rows there is no
    [dmin] to start from. *)
Definition sidebar_inicial (df_full : DataFrame)
  : option (date * date * list string * list string * string) :=
  match Series_min (column Fecha df_full), Series_max (column Fecha df_full) with
  | Some dmin, Some dmax =>
      Some ((dt_date dmin, dt_date dmax),
            unique (column Región df_full),
            unique (column Categoría df_full),
            "Periodo anterior"%string)
  | _, _ => None
  end.

(** ** Section 2 of the script: [badge], and the KPI cards of section 8 *)

(** [x >= 0] *)
Definition py_ge_0 (x : value) : result bool :=
  match x with
  | VNone => Raise TypeError
  | VInt z => Ok (0 <=? z)
  | VFloat f => Ok (leb zero f)
  end.

(** [badge(pct)] *)
Definition badge (pct : value) : result string :=
  if pd_isna pct then Ok "<span style='color:#9ca3af'>n/d</span>"%string
  else
    let* up := py_ge_0 pct in
    let arrow := if up then "▲"%string else "▼"%string in
    let* up' := py_ge_0 pct in
    let color := if up' then "#16a34a"%string else "#dc2626"%string in
    let* txt := py_format pct 1 in
    Ok ("<span style='color:" ++ color ++ ";font-size:0.85rem;'>"
        ++ arrow ++ " " ++ txt ++ "%</span>")%string.

Definition nl : string := String (ascii_of_nat 10) EmptyString.

(** One turn of the loop over the three KPIs: the delta, then the card. *)
Definition tarjeta (valor : value) (etiqueta : string) (prev : value)
  : result string :=
  let* pct := delta_pct valor prev in
  let* val :=
    fmt_moneda valor
      (if negb (String.eqb etiqueta "Promedio por Orden") then 0%nat
       else 2%nat) in
  let* del := badge pct in
  Ok (nl ++ "        <div class='kpi'>" ++ nl
      ++ "          <span class='val'>" ++ val ++ "</span>" ++ nl
      ++ "          <div class='lab'>" ++ etiqueta ++ "</div>" ++ nl
      ++ "          <span class='del'>" ++ del ++ "</span>" ++ nl
      ++ "        </div>" ++ nl
      ++ "        ")%string.

(** Section 8 as it runs: the aggregates, the comparison, the three cards. *)
Definition tarjetas (df_full df : DataFrame) (rango : date * date)
    (modo_comp : string) : result (list string) :=
  let '(tot, avg, cnt) := agregados df in
  let* prev := comparacion df_full rango modo_comp in
  let '(_, (prev_tot, prev_avg, prev_cnt)) := prev in
  let* c1 := tarjeta tot "Ventas Totales" prev_tot in
  let* c2 := tarjeta avg "Promedio por Orden" prev_avg in
  let* c3 := tarjeta cnt "Número de Órdenes" prev_cnt in
  Ok [c1; c2; c3].

(** A float that is a zero or has the given sign, and is not NaN. *)
Definition con_signo (s : bool) (f : float) : Prop :=
  match f with
  | S754_zero _ => True
  | S754_infinity s' => s' = s
  | S754_nan => False
  | S754_finite s' _ _ => s' = s
  end.

(** A positive finite float in canonical form. *)
Definition positivo_finito (f : float) : Prop :=
  valid_binary prec emax f = true /\ exists m e, f = S754_finite false m e.

(** ** Section 10 of the script: the detail table *)

(** [d.strftime("%Y-%m-%d")]; the year of a timestamp has four digits. *)
Definition strftime_Ymd (d : date) : string :=
  (digits_fixed 4 (year d) ++ "-" ++ digits_fixed 2 (month d)
   ++ "-" ++ digits_fixed 2 (day d))%string.

(** A row of [tabla]: the date and the amount are text. *)
Record FilaTabla := mkFilaTabla {
  t_Fecha : string;
  t_Categoría : string;
  t_Región : string;
  t_Ventas : string
}.

(** [tabla = df.copy()] with the columns [Fecha] and [Ventas] replaced by
    their renderings; the frame [df] itself is not written to. *)
Fixpoint tabla_detalle (df : DataFrame) : result (list (nat * FilaTabla)) :=
  match df with
  | [] => Ok []
  | (i, r) :: df' =>
      let* v := fmt_moneda (VFloat (Ventas r)) 2 in
      let* t := tabla_detalle df' in
      Ok ((i, mkFilaTabla (strftime_Ymd (dt_date (Fecha r)))
                (Categoría r) (Región r) v) :: t)
  end.

(** The row of [tabla] made from a row of [df]. *)
Definition fila_tabla (x : nat * Row) : nat * FilaTabla :=
  (fst x,
   mkFilaTabla (strftime_Ymd (dt_date (Fecha (snd x))))
     (Categoría (snd x)) (Región (snd x))
     (if is_nan (Ventas (snd x)) then "—"%string
      else ("$" ++ formato_es (Ventas (snd x)) 2)%string)).
(** * Properties *)

(** ** The calendar *)

Example ymd2ord_2025_06_01 : ymd2ord 2025 6 1 = 739403.
Proof. reflexivity. Qed.

Example ord2ymd_739403 : ord2ymd 739403 = mkdate 2025 6 1.
Proof. reflexivity. Qed.

Example ord2ymd_leap_day : ord2ymd (ymd2ord 2024 2 29) = mkdate 2024 2 29.
Proof. reflexivity. Qed.

Example ord2ymd_last_day : ord2ymd (ymd2ord 2000 12 31) = mkdate 2000 12 31.
Proof. reflexivity. Qed.

Lemma is_leap_decomp a b c e :
  0 <= b < 4 -> 0 <= c < 25 -> 0 <= e < 4 ->
  is_leap (400 * a + 100 * b + 4 * c + e + 1)
  = (e =? 3) && (negb (c =? 24) || (b =? 3)).
Proof.
  intros Hb Hc He. unfold is_leap.
  destruct (Z.eqb_spec e 3), (Z.eqb_spec c 24), (Z.eqb_spec b 3);
    repeat match goal with
    | |- context [?x mod ?k =? 0] => destruct (Z.eqb_spec (x mod k) 0)
    end; simpl; try reflexivity; exfalso;
    Z.div_mod_to_equations; lia.
Qed.

Lemma days_before_year_decomp a b c e :
  0 <= b < 4 -> 0 <= c < 25 -> 0 <= e < 4 ->
  days_before_year (400 * a + 100 * b + 4 * c + e + 1)
  = 146097 * a + 36524 * b + 1461 * c + 365 * e.
Proof.
  intros Hb Hc He. unfold days_before_year.
  Z.div_mod_to_equations. lia.
Qed.

Lemma year_decomp y :
  exists a b c e, 0 <= b < 4 /\ 0 <= c < 25 /\ 0 <= e < 4 /\
    y = 400 * a + 100 * b + 4 * c + e + 1.
Proof.
  exists ((y - 1) / 400), ((y - 1) mod 400 / 100),
    ((y - 1) mod 100 / 4), ((y - 1) mod 4).
  Z.div_mod_to_equations. lia.
Qed.

Lemma month_cases m : 1 <= m <= 12 ->
  m = 1 \/ m = 2 \/ m = 3 \/ m = 4 \/ m = 5 \/ m = 6 \/ m = 7 \/ m = 8 \/
  m = 9 \/ m = 10 \/ m = 11 \/ m = 12.
Proof. lia. Qed.

Ltac is_Zconst v :=
  lazymatch v with
  | Z0 => idtac | Zpos ?p => idtac | Zneg ?p => idtac
  end.

Ltac eval_tables :=
  repeat match goal with
  | |- context [table ?T ?k] =>
      let v := eval vm_compute in (table T k) in
      is_Zconst v; change (table T k) with v
  | H : context [table ?T ?k] |- _ =>
      let v := eval vm_compute in (table T k) in
      is_Zconst v; change (table T k) with v in H
  | |- context [Z.eqb ?a ?b] =>
      is_Zconst a; is_Zconst b;
      let v := eval vm_compute in (Z.eqb a b) in change (Z.eqb a b) with v
  | H : context [Z.eqb ?a ?b] |- _ =>
      is_Zconst a; is_Zconst b;
      let v := eval vm_compute in (Z.eqb a b) in change (Z.eqb a b) with v in H
  | |- context [Z.ltb ?a ?b] =>
      is_Zconst a; is_Zconst b;
      let v := eval vm_compute in (Z.ltb a b) in change (Z.ltb a b) with v
  | H : context [Z.ltb ?a ?b] |- _ =>
      is_Zconst a; is_Zconst b;
      let v := eval vm_compute in (Z.ltb a b) in change (Z.ltb a b) with v in H
  | |- context [Z.sub ?a ?b] =>
      is_Zconst a; is_Zconst b;
      let v := eval vm_compute in (Z.sub a b) in change (Z.sub a b) with v
  end; cbn [andb orb negb] in *.

Lemma month_day_correct leap y m d :
  1 <= m <= 12 ->
  1 <= d <= (if (m =? 2) && leap then 29 else table DAYS_IN_MONTH m) ->
  month_day leap y
    (table DAYS_BEFORE_MONTH m + (if (2 <? m) && leap then 1 else 0) + d - 1)
  = mkdate y m d.
Proof.
  intros Hm Hd. unfold month_day.
  rewrite Z.shiftr_div_pow2 by lia. change (2 ^ 5) with 32.
  apply month_cases in Hm.
  repeat (destruct Hm as [-> | Hm]); try subst m; destruct leap;
    eval_tables;
    match goal with
    | |- context [?x / 32] =>
        let q := fresh "q" in
        remember (x / 32) as q eqn:Hq;
        assert (Hc : 1 <= q <= 12) by (Z.div_mod_to_equations; lia);
        apply month_cases in Hc;
        repeat (destruct Hc as [Hc | Hc]); rewrite Hc in Hq |- *; clear Hc;
        try (exfalso; Z.div_mod_to_equations; lia)
    end; eval_tables;
    match goal with
    | |- context [?a <? ?b] => destruct (Z.ltb_spec a b)
    end; eval_tables;
    try (f_equal; lia); try (exfalso; Z.div_mod_to_equations; lia).
Qed.

Lemma ord2ymd_month_day n :
  ord2ymd n =
  let n := n - 1 in
  let n400 := n / DI400Y in
  let n := n mod DI400Y in
  let n100 := n / DI100Y in
  let n := n mod DI100Y in
  let n4 := n / DI4Y in
  let n := n mod DI4Y in
  let n1 := n / 365 in
  let n := n mod 365 in
  let y := n400 * 400 + 1 + (n100 * 100 + n4 * 4 + n1) in
  if (n1 =? 4) || (n100 =? 4) then mkdate (y - 1) 12 31
  else month_day ((n1 =? 3) && (negb (n4 =? 24) || (n100 =? 3))) y n.
Proof. reflexivity. Qed.

Lemma ord2ymd_digits a b c e t :
  0 <= b < 4 -> 0 <= c < 25 -> 0 <= e < 4 ->
  0 <= t <= 364 + leap_extra ((e =? 3) && (negb (c =? 24) || (b =? 3))) ->
  ord2ymd (146097 * a + 36524 * b + 1461 * c + 365 * e + t + 1)
  = if t =? 365 then mkdate (400 * a + 100 * b + 4 * c + e + 1) 12 31
    else month_day ((e =? 3) && (negb (c =? 24) || (b =? 3)))
           (400 * a + 100 * b + 4 * c + e + 1) t.
Proof.
  intros Hb Hc He Ht. rewrite ord2ymd_month_day. cbv zeta.
  unfold DI400Y, DI100Y, DI4Y.
  set (N := 146097 * a + 36524 * b + 1461 * c + 365 * e + t + 1 - 1).
  destruct (Z.eqb_spec t 365) as [Ht365 | Ht365].
  - (* last day of a leap year *)
    assert (Hl : e = 3 /\ (c <> 24 \/ b = 3)).
    { destruct (Z.eqb_spec e 3), (Z.eqb_spec c 24), (Z.eqb_spec b 3);
        cbn [andb orb negb leap_extra] in Ht; lia. }
    destruct Hl as [-> Hl]. subst t.
    assert (H400 : N / 146097 = a) by (subst N; Z.div_mod_to_equations; lia).
    assert (R400 : N mod 146097 = 36524 * b + 1461 * c + 1460)
      by (subst N; Z.div_mod_to_equations; lia).
    rewrite H400, R400.
    destruct (Z.eqb_spec c 24) as [-> | Hc24].
    + assert (Hb3 : b = 3) by lia.
      subst b.
      change ((36524 * 3 + 1461 * 24 + 1460) / 36524) with 4.
      rewrite Z.eqb_refl, orb_true_r. f_equal.
      change ((36524 * 3 + 1461 * 24 + 1460) mod 36524) with 0.
      change (0 / 1461) with 0. change (0 mod 1461) with 0.
      change (0 / 365) with 0. lia.
    + assert (H100 : (36524 * b + 1461 * c + 1460) / 36524 = b)
        by (Z.div_mod_to_equations; lia).
      assert (R100 : (36524 * b + 1461 * c + 1460) mod 36524 = 1461 * c + 1460)
        by (Z.div_mod_to_equations; lia).
      rewrite H100, R100.
      assert (H4 : (1461 * c + 1460) / 1461 = c)
        by (Z.div_mod_to_equations; lia).
      assert (R4 : (1461 * c + 1460) mod 1461 = 1460)
        by (Z.div_mod_to_equations; lia).
      rewrite H4, R4. change (1460 / 365) with 4. cbn [Z.eqb Pos.eqb orb].
      f_equal. lia.
  - assert (Ht' : 0 <= t <= 364).
    { destruct ((e =? 3) && (negb (c =? 24) || (b =? 3)));
        cbn [leap_extra] in Ht; lia. }
    assert (H400 : N / 146097 = a) by (subst N; Z.div_mod_to_equations; lia).
    assert (R400 : N mod 146097 = 36524 * b + 1461 * c + 365 * e + t)
      by (subst N; Z.div_mod_to_equations; lia).
    rewrite H400, R400.
    assert (H100 : (36524 * b + 1461 * c + 365 * e + t) / 36524 = b)
      by (Z.div_mod_to_equations; lia).
    assert (R100 : (36524 * b + 1461 * c + 365 * e + t) mod 36524
                   = 1461 * c + 365 * e + t)
      by (Z.div_mod_to_equations; lia).
    rewrite H100, R100.
    assert (H4 : (1461 * c + 365 * e + t) / 1461 = c)
      by (Z.div_mod_to_equations; lia).
    assert (R4 : (1461 * c + 365 * e + t) mod 1461 = 365 * e + t)
      by (Z.div_mod_to_equations; lia).
    rewrite H4, R4.
    assert (H1 : (365 * e + t) / 365 = e) by (Z.div_mod_to_equations; lia).
    assert (R1 : (365 * e + t) mod 365 = t) by (Z.div_mod_to_equations; lia).
    rewrite H1, R1.
    destruct (Z.eqb_spec e 4); [lia |].
    destruct (Z.eqb_spec b 4); [lia |].
    cbn [orb]. f_equal. lia.
Qed.

Lemma day_of_year_bounds leap m d :
  1 <= m <= 12 ->
  1 <= d <= (if (m =? 2) && leap then 29 else table DAYS_IN_MONTH m) ->
  0 <= table DAYS_BEFORE_MONTH m + (if (2 <? m) && leap then 1 else 0) + d - 1
    <= 364 + leap_extra leap.
Proof.
  intros Hm Hd. apply month_cases in Hm.
  repeat (destruct Hm as [-> | Hm]); try subst m; destruct leap;
    eval_tables; cbn [leap_extra]; lia.
Qed.

Lemma last_day_of_year leap m d :
  1 <= m <= 12 ->
  1 <= d <= (if (m =? 2) && leap then 29 else table DAYS_IN_MONTH m) ->
  table DAYS_BEFORE_MONTH m + (if (2 <? m) && leap then 1 else 0) + d - 1 = 365 ->
  m = 12 /\ d = 31.
Proof.
  intros Hm Hd. apply month_cases in Hm.
  repeat (destruct Hm as [-> | Hm]); try subst m; destruct leap;
    eval_tables; lia.
Qed.

Theorem ord2ymd_ymd2ord y m d :
  1 <= m <= 12 -> 1 <= d <= days_in_month y m ->
  ord2ymd (ymd2ord y m d) = mkdate y m d.
Proof.
  intros Hm Hd.
  destruct (year_decomp y) as (a & b & c & e & Hb & Hc & He & ->).
  unfold ymd2ord, days_before_month, days_in_month in *.
  rewrite days_before_year_decomp by assumption.
  rewrite is_leap_decomp in * by assumption.
  set (leap := (e =? 3) && (negb (c =? 24) || (b =? 3))) in *.
  set (t := table DAYS_BEFORE_MONTH m + (if (2 <? m) && leap then 1 else 0) + d - 1).
  replace (146097 * a + 36524 * b + 1461 * c + 365 * e +
           (table DAYS_BEFORE_MONTH m + (if (2 <? m) && leap then 1 else 0)) + d)
    with (146097 * a + 36524 * b + 1461 * c + 365 * e + t + 1) by (subst t; lia).
  pose proof (day_of_year_bounds leap m d Hm Hd) as Ht. fold t in Ht.
  rewrite ord2ymd_digits by assumption.
  destruct (Z.eqb_spec t 365) as [E | E].
  - destruct (last_day_of_year leap m d Hm Hd E) as [-> ->]. reflexivity.
  - apply month_day_correct; assumption.
Qed.

Lemma days_before_year_succ y :
  days_before_year (y + 1) = days_before_year y + 365 + leap_extra (is_leap y).
Proof.
  unfold days_before_year, is_leap.
  repeat match goal with
    | |- context [?x mod ?k =? 0] => destruct (Z.eqb_spec (x mod k) 0)
    end; cbn [andb orb negb leap_extra];
    Z.div_mod_to_equations; lia.
Qed.

Lemma days_before_year_mono y1 y2 :
  y1 <= y2 -> days_before_year y1 <= days_before_year y2.
Proof. unfold days_before_year. intros. Z.div_mod_to_equations. lia. Qed.

Lemma days_before_month_next y m :
  1 <= m < 12 ->
  days_before_month y (m + 1) = days_before_month y m + days_in_month y m.
Proof.
  intros Hm. unfold days_before_month, days_in_month.
  assert (Hm' : 1 <= m <= 12) by lia. apply month_cases in Hm'.
  destruct (is_leap y);
    repeat (destruct Hm' as [Hm' | Hm']); subst m; try lia;
    eval_tables; reflexivity.
Qed.

Lemma days_in_month_pos y m : 1 <= m <= 12 -> 28 <= days_in_month y m.
Proof.
  intros Hm. unfold days_in_month. apply month_cases in Hm.
  destruct (is_leap y);
    repeat (destruct Hm as [Hm | Hm]); subst m; eval_tables; lia.
Qed.

Lemma days_before_month_step y m1 m2 :
  1 <= m1 -> m1 < m2 -> m2 <= 12 ->
  days_before_month y m1 + days_in_month y m1 <= days_before_month y m2.
Proof.
  intros H1 H12 H2.
  replace m2 with (m1 + 1 + Z.of_nat (Z.to_nat (m2 - m1 - 1))) in * by lia.
  generalize dependent (Z.to_nat (m2 - m1 - 1)). intros k. clear m2.
  induction k as [| k IH]; intros.
  - rewrite Z.add_0_r, days_before_month_next by lia. lia.
  - rewrite Nat2Z.inj_succ.
    replace (m1 + 1 + Z.succ (Z.of_nat k)) with (m1 + 1 + Z.of_nat k + 1) by lia.
    rewrite days_before_month_next by lia.
    pose proof (days_in_month_pos y (m1 + 1 + Z.of_nat k)). lia.
Qed.

Lemma day_of_year_range y m d :
  1 <= m <= 12 -> 1 <= d <= days_in_month y m ->
  1 <= days_before_month y m + d <= 365 + leap_extra (is_leap y).
Proof.
  intros Hm Hd. unfold days_before_month, days_in_month in *.
  pose proof (day_of_year_bounds (is_leap y) m d Hm Hd). lia.
Qed.

Lemma toordinal_lt a b :
  valid a -> valid b -> date_lt a b -> toordinal a < toordinal b.
Proof.
  intros [Hma Hda] [Hmb Hdb] Hlt. unfold toordinal, ymd2ord.
  pose proof (day_of_year_range _ _ _ Hma Hda) as Ra.
  pose proof (day_of_year_range _ _ _ Hmb Hdb) as Rb.
  destruct Hlt as [Hy | [Hy [Hm | [Hm Hd]]]].
  - pose proof (days_before_year_succ (year a)) as Hs.
    pose proof (days_before_year_mono (year a + 1) (year b)). lia.
  - rewrite Hy in *.
    pose proof (days_before_month_step (year b) (month a) (month b)). lia.
  - rewrite Hy, Hm in *. lia.
Qed.

Lemma date_leb_cases a b :
  if date_leb a b then date_lt a b \/ (year a = year b /\ month a = month b /\ day a = day b)
  else date_lt b a.
Proof.
  unfold date_leb, date_lt.
  destruct (Z.ltb_spec (year a) (year b)), (Z.eqb_spec (year a) (year b)),
    (Z.ltb_spec (month a) (month b)), (Z.eqb_spec (month a) (month b)),
    (Z.leb_spec (day a) (day b)); cbn [andb orb]; lia.
Qed.

Theorem date_leb_toordinal a b :
  valid a -> valid b -> date_leb a b = (toordinal a <=? toordinal b).
Proof.
  intros Ha Hb. pose proof (date_leb_cases a b) as H.
  destruct (date_leb a b).
  - symmetry. apply Z.leb_le. destruct H as [H | (Hy & Hm & Hd)].
    + pose proof (toordinal_lt a b Ha Hb H). lia.
    + unfold toordinal. rewrite Hy, Hm, Hd. lia.
  - symmetry. apply Z.leb_gt. apply toordinal_lt; assumption.
Qed.

Lemma date_leb_true a b :
  date_leb a b = true <->
  (year a < year b
   \/ (year a = year b
       /\ (month a < month b \/ (month a = month b /\ day a <= day b)))).
Proof.
  pose proof (date_leb_cases a b) as H. unfold date_lt in H.
  destruct (date_leb a b); split; intros; try discriminate; try reflexivity; lia.
Qed.

Lemma date_leb_trans a b c :
  date_leb a b = true -> date_leb b c = true -> date_leb a c = true.
Proof. rewrite !date_leb_true. lia. Qed.

(** Every ordinal is the ordinal of a valid date. *)
Lemma day_of_year_surj leap t :
  0 <= t <= 364 + leap_extra leap ->
  exists m dd,
    1 <= m <= 12
    /\ 1 <= dd <= (if (m =? 2) && leap then 29 else table DAYS_IN_MONTH m)
    /\ table DAYS_BEFORE_MONTH m + (if (2 <? m) && leap then 1 else 0) + dd - 1
       = t.
Proof.
  intros Ht.
  set (x := leap_extra leap) in *.
  assert (Hx : x = leap_extra leap) by reflexivity.
  destruct (Z_lt_le_dec t 31);
    [exists 1, (t + 1) |
  destruct (Z_lt_le_dec t (59 + x));
    [exists 2, (t - 30) |
  destruct (Z_lt_le_dec t (90 + x));
    [exists 3, (t - 58 - x) |
  destruct (Z_lt_le_dec t (120 + x));
    [exists 4, (t - 89 - x) |
  destruct (Z_lt_le_dec t (151 + x));
    [exists 5, (t - 119 - x) |
  destruct (Z_lt_le_dec t (181 + x));
    [exists 6, (t - 150 - x) |
  destruct (Z_lt_le_dec t (212 + x));
    [exists 7, (t - 180 - x) |
  destruct (Z_lt_le_dec t (243 + x));
    [exists 8, (t - 211 - x) |
  destruct (Z_lt_le_dec t (273 + x));
    [exists 9, (t - 242 - x) |
  destruct (Z_lt_le_dec t (304 + x));
    [exists 10, (t - 272 - x) |
  destruct (Z_lt_le_dec t (334 + x));
    [exists 11, (t - 303 - x) | exists 12, (t - 333 - x)]]]]]]]]]]];
    subst x; destruct leap; cbn [leap_extra] in *; eval_tables; lia.
Qed.

Lemma ymd2ord_surj n :
  exists y m dd,
    1 <= m <= 12 /\ 1 <= dd <= days_in_month y m /\ ymd2ord y m dd = n.
Proof.
  set (a := (n - 1) / 146097).
  set (r0 := (n - 1) mod 146097).
  set (b := Z.min (r0 / 36524) 3).
  set (r1 := r0 - 36524 * b).
  set (c := r1 / 1461).
  set (r2 := r1 mod 1461).
  set (e := Z.min (r2 / 365) 3).
  set (t := r2 - 365 * e).
  assert (Hn : n = 146097 * a + r0 + 1 /\ 0 <= r0 < 146097)
    by (subst a r0; Z.div_mod_to_equations; lia).
  assert (Hb : 0 <= b < 4 /\ 0 <= r1 <= 36524 /\ (r1 = 36524 -> b = 3))
    by (subst b r1; Z.div_mod_to_equations; lia).
  assert (Hc : 0 <= c < 25 /\ r1 = 1461 * c + r2 /\ 0 <= r2 < 1461)
    by (subst c r2; Z.div_mod_to_equations; lia).
  assert (He : 0 <= e < 4 /\ 0 <= t <= 365 /\ (t = 365 -> e = 3 /\ r2 = 1460))
    by (subst e t; Z.div_mod_to_equations; lia).
  set (leap := (e =? 3) && (negb (c =? 24) || (b =? 3))).
  assert (Ht : 0 <= t <= 364 + leap_extra leap).
  { subst leap.
    destruct (Z.eqb_spec e 3), (Z.eqb_spec c 24), (Z.eqb_spec b 3);
      cbn [andb orb negb leap_extra]; lia. }
  destruct (day_of_year_surj leap t Ht) as (m & dd & Hm & Hd & Hdoy).
  exists (400 * a + 100 * b + 4 * c + e + 1), m, dd.
  unfold ymd2ord, days_in_month, days_before_month.
  rewrite is_leap_decomp, days_before_year_decomp by lia. fold leap.
  split_and!; lia.
Qed.

Theorem toordinal_fromordinal n :
  valid (fromordinal n) /\ toordinal (fromordinal n) = n.
Proof.
  destruct (ymd2ord_surj n) as (y & m & dd & Hm & Hd & <-).
  unfold fromordinal. rewrite ord2ymd_ymd2ord by assumption.
  split; [split; assumption | reflexivity].
Qed.

(** Dates are ordered as their ordinals are. *)
Corollary date_leb_fromordinal a b :
  date_leb (fromordinal a) (fromordinal b) = (a <=? b).
Proof.
  destruct (toordinal_fromordinal a) as [Va Ea].
  destruct (toordinal_fromordinal b) as [Vb Eb].
  rewrite (date_leb_toordinal _ _ Va Vb), Ea, Eb. reflexivity.
Qed.
(** ** Binary64: sign of sums *)

Lemma nonneg_sign_free f : nonneg f <-> sign_free f.
Proof.
  unfold nonneg, leb, SFleb, zero.
  destruct f as [s | s | | s m e]; cbn; try destruct s; cbn; intuition congruence.
Qed.

Lemma iter_pos_invariant {A} (P : A -> Prop) (f : A -> A) :
  (forall x, P x -> P (f x)) -> forall n x, P x -> P (SpecFloat.iter_pos f n x).
Proof.
  intros Hf n. induction n as [n IH | n IH |]; intros x Hx; cbn; auto.
Qed.

Lemma shr_1_nonneg mrs : 0 <= shr_m mrs -> 0 <= shr_m (shr_1 mrs).
Proof.
  destruct mrs as [m r s]. cbn. destruct m as [| p | p]; cbn; try lia.
  destruct p; cbn; lia.
Qed.

Lemma shr_nonneg mrs e n : 0 <= shr_m mrs -> 0 <= shr_m (fst (shr mrs e n)).
Proof.
  intros H. unfold shr. destruct n; cbn; try assumption.
  apply (iter_pos_invariant (fun x => 0 <= shr_m x)); auto using shr_1_nonneg.
Qed.

Lemma shr_m_of_loc m l : shr_m (shr_record_of_loc m l) = m.
Proof. destruct l as [| []]; reflexivity. Qed.

Lemma shr_fexp_nonneg p em m e l :
  0 <= m -> 0 <= shr_m (fst (shr_fexp p em m e l)).
Proof.
  intros H. unfold shr_fexp. apply shr_nonneg. rewrite shr_m_of_loc. exact H.
Qed.

Lemma round_nearest_even_nonneg m l : 0 <= m -> 0 <= round_nearest_even m l.
Proof.
  intros H. unfold round_nearest_even.
  destruct l as [| []]; try destruct (Z.even m); lia.
Qed.

Lemma binary_round_aux_sign p em s m e l :
  0 <= m ->
  match binary_round_aux p em s m e l with
  | S754_zero s' | S754_infinity s' | S754_finite s' _ _ => s' = s
  | S754_nan => False
  end.
Proof.
  intros H. unfold binary_round_aux.
  pose proof (shr_fexp_nonneg p em m e l H) as H1.
  destruct (shr_fexp p em m e l) as [mrs' e'].
  pose proof (shr_fexp_nonneg p em
    (round_nearest_even (shr_m mrs') (loc_of_shr_record mrs')) e' loc_Exact
    (round_nearest_even_nonneg _ _ H1)) as H2.
  destruct (shr_fexp p em _ e' loc_Exact) as [mrs'' e''].
  cbn [fst] in H2. destruct (shr_m mrs'') as [| q | q]; try lia; try reflexivity.
  destruct (e'' <=? em - p); reflexivity.
Qed.

Lemma binary_round_sign p em s m e :
  match binary_round p em s m e with
  | S754_zero s' | S754_infinity s' | S754_finite s' _ _ => s' = s
  | S754_nan => False
  end.
Proof.
  unfold binary_round. destruct (shl_align _ _ _) as [mz ez].
  apply binary_round_aux_sign. lia.
Qed.

Lemma add_nonneg x y : nonneg x -> nonneg y -> nonneg (add x y).
Proof.
  rewrite !nonneg_sign_free. unfold add.
  destruct x as [sx | sx | | sx mx ex], y as [sy | sy | | sy my ey];
    cbn [sign_free]; intros Hx Hy; try contradiction; subst;
    try (destruct sx, sy; exact I); try reflexivity.
  cbn [SFadd cond_Zopp]. 
  match goal with |- sign_free (binary_normalize _ _ (Z.pos ?a + Z.pos ?b) ?e _) =>
    change (Z.pos a + Z.pos b) with (Z.pos (a + b));
    cbn [binary_normalize];
    pose proof (binary_round_sign prec emax false (a + b) e) as H
  end.
  destruct (binary_round _ _ _ _ _); cbn; auto.
Qed.

Lemma fillna0_nonneg f : nonneg f -> fillna0 f = f.
Proof.
  rewrite nonneg_sign_free. destruct f; cbn; intros; try contradiction; reflexivity.
Qed.

(** ** Binary64: aligned mantissas *)

Lemma iter_xO_pow m k : Z.pos (Pos.iter xO m k) = Z.pos m * 2 ^ Z.pos k.
Proof.
  rewrite <- Z.shiftl_mul_pow2 by lia. cbn [Z.shiftl].
  apply (Pos.iter_swap_gen _ _ Z.pos xO (Z.mul 2)). reflexivity.
Qed.

Lemma shl_align_value m e e' :
  e' <= e -> Z.pos (fst (shl_align m e e')) = Z.pos m * 2 ^ (e - e').
Proof.
  intros H. unfold shl_align.
  destruct (e' - e) as [| q | q] eqn:E; cbn [fst].
  - replace (e - e') with 0 by lia. lia.
  - lia.
  - rewrite iter_xO_pow. f_equal. f_equal. lia.
Qed.

Lemma digits2_pos_size m : digits2_pos m = Pos.size m.
Proof. induction m; cbn; congruence. Qed.

(** ** Binary64: sums of whole numbers *)

Lemma iter_pos_comm {A} (f : A -> A) p : forall x,
  SpecFloat.iter_pos f p (f x) = f (SpecFloat.iter_pos f p x).
Proof.
  induction p as [p IH | p IH |]; intros x; cbn; rewrite ?IH; reflexivity.
Qed.

Lemma iter_pos_succ {A} (f : A -> A) p : forall x,
  SpecFloat.iter_pos f (Pos.succ p) x = SpecFloat.iter_pos f p (f x).
Proof.
  induction p as [p IH | p IH |]; intros x.
  - change (Pos.succ p~1) with (Pos.succ p)~0%positive.
    cbn [SpecFloat.iter_pos]. rewrite !IH, !iter_pos_comm. reflexivity.
  - change (Pos.succ p~0) with p~1%positive.
    cbn [SpecFloat.iter_pos]. rewrite !iter_pos_comm. reflexivity.
  - reflexivity.
Qed.

Lemma shr_xO m e n :
  0 <= n ->
  shr (shr_record_of_loc (Z.pos m~0) loc_Exact) (e - 1) (n + 1)
  = shr (shr_record_of_loc (Z.pos m) loc_Exact) e n.
Proof.
  intros Hn. destruct n as [| p | p]; [| | lia].
  - change (0 + 1) with 1. unfold shr. cbn [SpecFloat.iter_pos].
    replace (e - 1 + 1) with e by lia. reflexivity.
  - change (Z.pos p + 1) with (Z.pos (p + 1)). rewrite Pos.add_1_r.
    unfold shr.
    rewrite iter_pos_succ.
    replace (e - 1 + Z.pos (Pos.succ p)) with (e + Z.pos p) by lia.
    reflexivity.
Qed.

Lemma iter_xO_xO m q : Pos.iter xO (xO m) q = xO (Pos.iter xO m q).
Proof. symmetry. apply (Pos.iter_swap_gen _ _ xO xO xO). reflexivity. Qed.

(** Rounding depends on the value only: a mantissa twice as large with an
    exponent one less rounds to the same float. *)
Lemma binary_round_xO s m e :
  binary_round prec emax s m~0 (e - 1) = binary_round prec emax s m e.
Proof.
  unfold binary_round. cbn [digits2_pos].
  replace (Z.pos (Pos.succ (digits2_pos m)) + (e - 1))
    with (Z.pos (digits2_pos m) + e) by lia.
  set (t := fexp prec emax (Z.pos (digits2_pos m) + e)).
  unfold shl_align.
  destruct (t - e) as [| q | q] eqn:E.
  - replace (t - (e - 1)) with 1 by lia.
    unfold binary_round_aux, shr_fexp.
    cbn [Zdigits2 digits2_pos].
    replace (Z.pos (Pos.succ (digits2_pos m)) + (e - 1))
      with (Z.pos (digits2_pos m) + e) by lia.
    fold t.
    replace (t - (e - 1)) with (t - e + 1) by lia.
    rewrite shr_xO by lia. reflexivity.
  - replace (t - (e - 1)) with (Z.pos (q + 1)) by lia.
    cbv iota.
    unfold binary_round_aux, shr_fexp.
    cbn [Zdigits2 digits2_pos].
    replace (Z.pos (Pos.succ (digits2_pos m)) + (e - 1))
      with (Z.pos (digits2_pos m) + e) by lia.
    fold t.
    replace (t - (e - 1)) with (t - e + 1) by lia.
    rewrite shr_xO by lia. reflexivity.
  - destruct (Pos.eq_dec q 1%positive) as [-> | Hq].
    + replace (t - (e - 1)) with 0 by lia. cbn [Pos.iter].
      replace (e - 1) with t by lia. reflexivity.
    + replace (t - (e - 1)) with (Z.neg (Pos.pred q)) by lia.
      rewrite iter_xO_xO.
      rewrite <- Pos.iter_succ, Pos.succ_pred by exact Hq. reflexivity.
Qed.

Lemma binary_round_shift s m e (k : nat) :
  binary_round prec emax s (Pos.shiftl_nat m k) (e - Z.of_nat k)
  = binary_round prec emax s m e.
Proof.
  induction k as [| k IH].
  - cbn [Pos.shiftl_nat nat_rect]. f_equal. lia.
  - replace (e - Z.of_nat (S k)) with (e - Z.of_nat k - 1) by lia.
    change (Pos.shiftl_nat m (S k)) with (xO (Pos.shiftl_nat m k)).
    rewrite binary_round_xO. exact IH.
Qed.

Lemma shiftl_nat_value m (k : nat) :
  Z.pos (Pos.shiftl_nat m k) = Z.pos m * 2 ^ Z.of_nat k.
Proof.
  induction k as [| k IH].
  - cbn. lia.
  - change (Pos.shiftl_nat m (S k)) with (xO (Pos.shiftl_nat m k)).
    rewrite Pos2Z.inj_xO, IH, Nat2Z.inj_succ, Z.pow_succ_r by lia. lia.
Qed.

Lemma binary_round_value s m m' e e' :
  e' <= e -> Z.pos m' = Z.pos m * 2 ^ (e - e') ->
  binary_round prec emax s m' e' = binary_round prec emax s m e.
Proof.
  intros He Hm.
  rewrite <- (binary_round_shift s m e (Z.to_nat (e - e'))).
  f_equal; [| lia].
  apply Pos2Z.inj. rewrite Hm, shiftl_nat_value. f_equal. f_equal. lia.
Qed.

Lemma shl_align_snd m e e' : e' <= e -> snd (shl_align m e e') = e'.
Proof.
  intros H. unfold shl_align.
  destruct (e' - e) as [| q | q] eqn:E; cbn [snd]; lia.
Qed.

Lemma digits2_pos_bounds m n :
  2 ^ (n - 1) <= Z.pos m < 2 ^ n -> 0 < n -> Z.pos (digits2_pos m) = n.
Proof.
  intros [Hlo Hhi] Hn. rewrite digits2_pos_size.
  pose proof (Pos.size_gt m) as G. pose proof (Pos.size_le m) as L.
  apply Pos2Z.pos_lt_pos in G. apply Pos2Z.pos_le_pos in L.
  rewrite Pos2Z.inj_pow in G, L.
  set (k := Z.pos (Pos.size m)) in *.
  assert (Hk : 0 < k) by (subst k; lia).
  destruct (Z.lt_trichotomy k n) as [H | [H | H]]; [| exact H |].
  - assert (2 ^ k <= 2 ^ (n - 1)) by (apply Z.pow_le_mono_r; lia). lia.
  - assert (2 ^ Z.succ n <= 2 ^ k) by (apply Z.pow_le_mono_r; lia).
    rewrite Z.pow_succ_r in H0 by lia. lia.
Qed.

Lemma digits2_pos_range m :
  2 ^ (Z.pos (digits2_pos m) - 1) <= Z.pos m < 2 ^ Z.pos (digits2_pos m).
Proof.
  rewrite digits2_pos_size.
  pose proof (Pos.size_gt m) as G. pose proof (Pos.size_le m) as L.
  apply Pos2Z.pos_lt_pos in G. apply Pos2Z.pos_le_pos in L.
  rewrite Pos2Z.inj_pow in G, L.
  set (k := Z.pos (Pos.size m)) in *.
  assert (Hk : 0 < k) by (subst k; lia).
  replace k with (Z.succ (k - 1)) in L by lia.
  rewrite Z.pow_succ_r in L by lia. lia.
Qed.

(** A mantissa of 53 bits with an exponent in range is left as it is. *)
Lemma binary_round_aux_canonical s m t :
  Z.pos (digits2_pos m) = 53 -> -1074 <= t <= 971 ->
  binary_round_aux prec emax s (Z.pos m) t loc_Exact = S754_finite s m t.
Proof.
  intros Hd Ht. unfold binary_round_aux, shr_fexp.
  cbn [Zdigits2 shr_record_of_loc]. rewrite Hd.
  assert (E : fexp prec emax (53 + t) - t = 0)
    by (unfold fexp, SpecFloat.emin, prec, emax; lia).
  rewrite E. cbn [shr shr_m loc_of_shr_record round_nearest_even Zdigits2].
  rewrite Hd, E. cbn [shr shr_m].
  destruct (Z.leb_spec t (emax - prec)) as [_ | H]; [reflexivity |].
  unfold emax, prec in H. lia.
Qed.

(** A whole number below [2^53] is a float: its mantissa has 53 bits. *)
Lemma of_Z_pos (N : positive) :
  Z.pos N < 2 ^ 53 ->
  exists m e, of_Z (Z.pos N) = S754_finite false m e
              /\ -52 <= e <= 0 /\ Z.pos m = Z.pos N * 2 ^ (- e).
Proof.
  intros HN. unfold of_Z, binary_normalize, binary_round.
  pose proof (digits2_pos_range N) as Hr.
  set (dN := Z.pos (digits2_pos N)) in *.
  assert (HdN : 0 < dN <= 53).
  { split; [subst dN; lia |].
    destruct (Z.le_gt_cases dN 53) as [H | H]; [exact H |].
    assert (2 ^ 53 <= 2 ^ (dN - 1)) by (apply Z.pow_le_mono_r; lia). lia. }
  assert (E : fexp prec emax (dN + 0) = dN - 53)
    by (unfold fexp, SpecFloat.emin, prec, emax; lia).
  rewrite E.
  pose proof (shl_align_value N 0 (dN - 53) ltac:(lia)) as Hv.
  pose proof (shl_align_snd N 0 (dN - 53) ltac:(lia)) as He.
  destruct (shl_align N 0 (dN - 53)) as [mz ez]. cbn [fst snd] in Hv, He.
  subst ez. replace (0 - (dN - 53)) with (53 - dN) in Hv by lia.
  assert (Hp : 2 ^ (dN - 1) * 2 ^ (53 - dN) = 2 ^ 52)
    by (rewrite <- Z.pow_add_r by lia; f_equal; lia).
  assert (Hq : 2 ^ dN * 2 ^ (53 - dN) = 2 ^ 53)
    by (rewrite <- Z.pow_add_r by lia; f_equal; lia).
  assert (H2 : 0 < 2 ^ (53 - dN)) by (apply Z.pow_pos_nonneg; lia).
  rewrite binary_round_aux_canonical.
  - exists mz, (dN - 53). split; [reflexivity |]. split; [lia |].
    rewrite Hv. f_equal. f_equal. lia.
  - apply digits2_pos_bounds; [| lia]. rewrite Hv.
    change (53 - 1) with 52. nia.
  - lia.
Qed.

Lemma add_of_Z a b :
  0 <= a -> 0 <= b -> a + b < 2 ^ 53 ->
  add (of_Z a) (of_Z b) = of_Z (a + b).
Proof.
  intros Ha Hb Hab.
  destruct a as [| pa | pa]; [| | lia].
  { destruct b as [| pb | pb]; [reflexivity | | lia].
    change (0 + Z.pos pb) with (Z.pos pb).
    destruct (of_Z_pos pb ltac:(lia)) as (m & e & -> & _). reflexivity. }
  destruct b as [| pb | pb]; [| | lia].
  { rewrite Z.add_0_r.
    destruct (of_Z_pos pa ltac:(lia)) as (m & e & -> & _). reflexivity. }
  destruct (of_Z_pos pa ltac:(lia)) as (ma & ea & -> & Hea & Hma).
  destruct (of_Z_pos pb ltac:(lia)) as (mb & eb & -> & Heb & Hmb).
  unfold add. cbn [SFadd cond_Zopp].
  set (ez := Z.min ea eb).
  change (Z.pos (fst (shl_align ma ea ez)) + Z.pos (fst (shl_align mb eb ez)))
    with (Z.pos (fst (shl_align ma ea ez) + fst (shl_align mb eb ez))).
  change (Z.pos pa + Z.pos pb) with (Z.pos (pa + pb)).
  unfold of_Z. cbn [binary_normalize].
  apply binary_round_value; [lia |].
  rewrite !Pos2Z.inj_add, !shl_align_value by lia.
  rewrite Hma, Hmb, <- !Z.mul_assoc, <- !Z.pow_add_r by lia.
  replace (- ea + (ea - ez)) with (0 - ez) by lia.
  replace (- eb + (eb - ez)) with (0 - ez) by lia.
  lia.
Qed.
(** ** Masks, selections and the store *)

Lemma series_and_map {A} (p q : A -> bool) (l : list A) :
  series_and (map p l) (map q l) = map (fun x => p x && q x) l.
Proof.
  unfold series_and. induction l as [| x l IH]; cbn; [reflexivity |].
  f_equal. exact IH.
Qed.

Lemma select_map (p : nat * Row -> bool) (df : DataFrame) :
  select df (map p df) = List.filter p df.
Proof.
  induction df as [| r df IH]; cbn; [reflexivity |].
  destruct (p r); rewrite IH; reflexivity.
Qed.

Lemma getitem_mask_map (p : nat * Row -> bool) (df : DataFrame) :
  getitem_mask df (map p df) = Ok (List.filter p df).
Proof.
  unfold getitem_mask. rewrite length_map, Nat.eqb_refl, select_map.
  reflexivity.
Qed.

Lemma mascara_map df rango regiones categorias :
  mascara df rango regiones categorias
  = map (incluido_b rango regiones categorias) df.
Proof.
  unfold mascara, isin, column. rewrite !map_map.
  rewrite !series_and_map. reflexivity.
Qed.

Lemma filtrado_principal_filter df rango regiones categorias :
  filtrado_principal df rango regiones categorias
  = Ok (List.filter (incluido_b rango regiones categorias) df).
Proof.
  unfold filtrado_principal. rewrite mascara_map, getitem_mask_map.
  reflexivity.
Qed.

Lemma incluido_b_true rango regiones categorias x :
  incluido_b rango regiones categorias x = true
  <-> incluido rango regiones categorias (snd x).
Proof.
  unfold incluido_b, incluido. rewrite !andb_true_iff, !bool_decide_eq_true.
  tauto.
Qed.

Lemma filter_sublist {A} (p : A -> bool) (l : list A) :
  List.filter p l `sublist_of` l.
Proof.
  induction l as [| x l IH]; cbn; [constructor |].
  destruct (p x); [apply sublist_skip | apply sublist_cons]; exact IH.
Qed.

Lemma sublist_index (df1 df2 : DataFrame) :
  df1 `sublist_of` df2 -> index df1 `sublist_of` index df2.
Proof.
  induction 1; cbn; [constructor | apply sublist_skip | apply sublist_cons];
    assumption.
Qed.

Lemma elem_of_filter {A} (p : A -> bool) (l : list A) (x : A) :
  x ∈ List.filter p l <-> x ∈ l /\ p x = true.
Proof. rewrite !list_elem_of_In. apply filter_In. Qed.

Lemma filter_idem {A} (p : A -> bool) (l : list A) :
  List.filter p (List.filter p l) = List.filter p l.
Proof.
  induction l as [| x l IH]; cbn; [reflexivity |].
  destruct (p x) eqn:E; cbn; [rewrite E, IH |]; auto.
Qed.

Lemma alloc_fresh df (h : store) : h !! fst (alloc df h) = None.
Proof. unfold alloc. cbn. apply not_elem_of_dom, is_fresh. Qed.

Lemma alloc_lookup df (h : store) : snd (alloc df h) !! fst (alloc df h) = Some df.
Proof. unfold alloc. cbn. apply lookup_insert_eq. Qed.

Lemma alloc_other df (h : store) l :
  is_Some (h !! l) -> snd (alloc df h) !! l = h !! l.
Proof.
  intros Hl. unfold alloc. cbn. apply lookup_insert_ne.
  intros E. pose proof (alloc_fresh df h) as F. unfold alloc in F. cbn in F.
  rewrite <- E, F in Hl. destruct Hl; discriminate.
Qed.


(** ** The delta calculator *)

(** The threshold is where rounding to nearest first yields an infinity. *)
Example of_Z_below_threshold :
  of_Z (overflow_threshold - 1)
  = S754_finite false 9007199254740991 971.
Proof. reflexivity. Qed.

Example of_Z_at_threshold : of_Z overflow_threshold = S754_infinity false.
Proof. reflexivity. Qed.

Example div_below_threshold :
  div (exact_Z (overflow_threshold * 7 - 1)) (exact_Z 7)
  = S754_finite false 9007199254740991 971.
Proof. reflexivity. Qed.

Example div_at_threshold :
  div (exact_Z (overflow_threshold * 7)) (exact_Z 7) = S754_infinity false.
Proof. reflexivity. Qed.

(** The quotient of two integers is rounded once: 1/3 and 10/100. *)
Example div_1_3 :
  div (exact_Z 1) (exact_Z 3) = S754_finite false 6004799503160661 (-54).
Proof. reflexivity. Qed.

Example div_10_100 :
  div (exact_Z 10) (exact_Z 100) = div (of_Z 10) (of_Z 100).
Proof. reflexivity. Qed.

Lemma threshold_above_machine : 2 ^ 64 < overflow_threshold.
Proof. reflexivity. Qed.

Lemma float_of_int_ok z :
  Z.abs z < overflow_threshold -> float_of_int z = Ok (of_Z z).
Proof.
  intros H. unfold float_of_int.
  destruct (Z.leb_spec overflow_threshold (Z.abs z)); [lia | reflexivity].
Qed.

Lemma float_of_int_machine z :
  - 2 ^ 63 <= z < 2 ^ 63 -> float_of_int z = Ok (of_Z z).
Proof.
  intros H. apply float_of_int_ok.
  pose proof threshold_above_machine. lia.
Qed.

Lemma eqb_zero_true f : eqb f zero = true <-> exists s, f = S754_zero s.
Proof.
  unfold eqb, SFeqb, zero. destruct f as [s | s | | s m e]; cbn.
  - split; eauto.
  - destruct s; split; try discriminate; intros [? ?]; discriminate.
  - split; try discriminate; intros [? ?]; discriminate.
  - destruct s; split; try discriminate; intros [? ?]; discriminate.
Qed.

Lemma guard_sin_referencia pasado :
  in_0_None pasado || pd_isna pasado = true <-> sin_referencia pasado.
Proof.
  unfold sin_referencia. destruct pasado as [| z | f]; cbn.
  - split; auto.
  - rewrite orb_false_r, Z.eqb_eq. split.
    + intros ->. auto.
    + intros [H | [H | [[s H] | H]]]; congruence.
  - rewrite orb_true_iff, eqb_zero_true. split.
    + intros [[s ->] | H]; [eauto |].
      destruct f; try discriminate. auto.
    + intros [H | [H | [[s H] | H]]]; try discriminate.
      * left. exists s. congruence.
      * right. injection H as ->. reflexivity.
Qed.

Lemma delta_pct_sin_referencia actual pasado :
  sin_referencia pasado -> delta_pct actual pasado = Ok (VFloat nan).
Proof.
  intros H. apply guard_sin_referencia in H. unfold delta_pct.
  rewrite H. reflexivity.
Qed.

Lemma delta_pct_porcentaje actual pasado :
  actual <> VNone -> machine_int actual -> machine_int pasado ->
  ~ sin_referencia pasado ->
  delta_pct actual pasado = Ok (VFloat (porcentaje actual pasado)).
Proof.
  intros Ha Ma Mp Hp. unfold delta_pct.
  destruct (in_0_None pasado || pd_isna pasado) eqn:G.
  { exfalso. apply Hp, guard_sin_referencia, G. }
  assert (H100 : float_of_int 100 = Ok (of_Z 100)) by reflexivity.
  pose proof threshold_above_machine as T.
  destruct actual as [| a | a]; [congruence | |];
    destruct pasado as [| p | p]; try discriminate; cbn in Ma, Mp.
  - cbn [py_sub bind py_truediv].
    assert (p <> 0).
    { intros ->. apply Hp. right. left. reflexivity. }
    destruct (Z.eqb_spec p 0); [contradiction |].
    destruct (Z.leb_spec (overflow_threshold * Z.abs p) (Z.abs (a - p))); [nia |].
    cbn [bind py_mul]. rewrite H100. reflexivity.
  - cbn [py_sub]. rewrite (float_of_int_machine a Ma). cbn [bind py_truediv py_mul].
    rewrite H100. reflexivity.
  - cbn [py_sub]. rewrite (float_of_int_machine p Mp).
    cbn [bind py_truediv]. rewrite (float_of_int_machine p Mp).
    cbn [bind py_mul]. rewrite H100. reflexivity.
  - cbn [py_sub bind py_truediv py_mul]. rewrite H100. reflexivity.
Qed.

Lemma sin_referencia_dec pasado : sin_referencia pasado \/ ~ sin_referencia pasado.
Proof.
  destruct (in_0_None pasado || pd_isna pasado) eqn:G.
  - left. apply guard_sin_referencia, G.
  - right. intros H. apply guard_sin_referencia in H. congruence.
Qed.

Lemma delta_pct_total actual pasado :
  actual <> VNone -> machine_int actual -> machine_int pasado ->
  exists f, delta_pct actual pasado = Ok (VFloat f).
Proof.
  intros Ha Ma Mp. destruct (sin_referencia_dec pasado) as [H | H].
  - exists nan. apply delta_pct_sin_referencia, H.
  - exists (porcentaje actual pasado). apply delta_pct_porcentaje; assumption.
Qed.

(** A missing current value propagates. *)
Lemma porcentaje_nan pasado :
  pasado <> VNone -> porcentaje (VFloat nan) pasado = nan.
Proof. destruct pasado; [congruence | reflexivity | reflexivity]. Qed.

(** ** Comparison period and KPIs *)

Lemma dt_date_to_datetime d : valid d -> dt_date (to_datetime d) = d.
Proof.
  intros [Hm Hd]. destruct d as [y m dd]. cbn in *.
  unfold dt_date, to_datetime, fromordinal, toordinal. cbn.
  apply ord2ymd_ymd2ord; assumption.
Qed.

Lemma un_anio_antes_valid d : valid d -> valid (un_anio_antes d).
Proof.
  intros [Hm Hd]. unfold valid, un_anio_antes. cbn.
  pose proof (days_in_month_pos (year d - 1) (month d) Hm). lia.
Qed.

Lemma sub_years_to_datetime d :
  valid d -> sub_years (to_datetime d) 1 = to_datetime (un_anio_antes d).
Proof.
  intros Hd. unfold sub_years. rewrite dt_date_to_datetime by exact Hd.
  reflexivity.
Qed.

Lemma periodo_anterior_filter df rango modo :
  periodo_anterior df rango modo
  = Ok (List.filter (en_ventana (ventana_anterior rango modo)) df).
Proof.
  unfold periodo_anterior.
  destruct (ventana_anterior rango modo) as [ini_prev fin_prev].
  unfold column. rewrite !map_map, series_and_map.
  apply getitem_mask_map.
Qed.

Lemma en_ventana_true w x :
  en_ventana w x = true <-> fst w <= Fecha (snd x) <= snd w.
Proof. unfold en_ventana. rewrite andb_true_iff, !Z.leb_le. tauto. Qed.

(** ** Sums *)

Lemma add_neg_zero_l x : add neg_zero x = x.
Proof. destruct x as [[] | | |]; reflexivity. Qed.

Lemma suma_de_fold done acc s :
  suma_de done acc -> suma_de (done ++ s) (fold_left add s acc).
Proof.
  revert done acc. induction s as [| x s IH]; intros done acc H; cbn [fold_left].
  - rewrite app_nil_r. exact H.
  - replace (done ++ x :: s) with ((done ++ [x]) ++ s)
      by (rewrite <- app_assoc; reflexivity).
    apply IH. apply suma_mas; [exact H | constructor].
Qed.

Lemma suma_de_suma s : suma_de s (suma s).
Proof. apply (suma_de_fold [] zero s). constructor. Qed.

Lemma suma_de_nonneg s a : Forall nonneg s -> suma_de s a -> nonneg a.
Proof.
  intros Hs H. induction H as [| x | l1 l2 a b H1 IH1 H2 IH2 | l l' a Hp H IH].
  - reflexivity.
  - inversion Hs; assumption.
  - apply Forall_app in Hs as [Hs1 Hs2]. apply add_nonneg; auto.
  - apply IH. rewrite Hp. exact Hs.
Qed.

Lemma sum_small_cons x a : sum_small (x :: a) = fold_left add a x.
Proof. unfold sum_small. cbn [fold_left]. rewrite add_neg_zero_l. reflexivity. Qed.

Lemma sum_small_suma_de a : a <> [] -> suma_de a (sum_small a).
Proof.
  destruct a as [| x a]; [congruence | intros _].
  rewrite sum_small_cons. apply (suma_de_fold [x]). constructor.
Qed.

Lemma unrolled_suma_de a : forall r leido,
  acc_de leido r ->
  exists leido',
    acc_de leido' (fst (unrolled r a))
    /\ Permutation (leido' ++ snd (unrolled r a)) (leido ++ a).
Proof.
  remember (List.length a) as n eqn:En. revert a En.
  induction n as [n IH] using lt_wf_ind. intros a En r leido Hr.
  destruct a as [| x0 [| x1 [| x2 [| x3 [| x4 [| x5 [| x6 [| x7 a']]]]]]]];
    try (exists leido; split; [exact Hr | reflexivity]).
  cbn [unrolled].
  destruct (IH (List.length a')) with (a := a')
    (r := mkacc8 (add (r0 r) x0) (add (r1 r) x1) (add (r2 r) x2)
                 (add (r3 r) x3) (add (r4 r) x4) (add (r5 r) x5)
                 (add (r6 r) x6) (add (r7 r) x7))
    (leido := leido ++ [x0; x1; x2; x3; x4; x5; x6; x7])
    as (leido' & Hacc & Hp).
  - subst n. cbn. lia.
  - reflexivity.
  - destruct Hr as (ls & Hls & Hperm). unfold acc_list in Hls.
    pose proof (Forall2_length _ _ _ Hls) as Hlen.
    destruct ls as [| l0 [| l1 [| l2 [| l3 [| l4 [| l5 [| l6 [| l7 [|]]]]]]]]];
      try discriminate Hlen.
    repeat (apply Forall2_cons_1 in Hls as [? Hls]).
    exists [l0 ++ [x0]; l1 ++ [x1]; l2 ++ [x2]; l3 ++ [x3];
            l4 ++ [x4]; l5 ++ [x5]; l6 ++ [x6]; l7 ++ [x7]].
    split.
    + unfold acc_list; cbn [r0 r1 r2 r3 r4 r5 r6 r7].
      repeat (constructor; [apply suma_mas; [assumption | constructor] |]).
      constructor.
    + rewrite <- Hperm. cbn [concat]. rewrite !app_nil_r.
      rewrite <- !app_assoc. cbn [app].
      solve_Permutation.
  - exists leido'. split; [exact Hacc |].
    rewrite Hp, <- app_assoc. reflexivity.
Qed.

Lemma sum_block_suma_de a : a <> [] -> suma_de a (sum_block a).
Proof.
  intros Ha.
  destruct a as [| x0 [| x1 [| x2 [| x3 [| x4 [| x5 [| x6 [| x7 a']]]]]]]];
    try (apply sum_small_suma_de; exact Ha).
  unfold sum_block.
  destruct (unrolled_suma_de a' (mkacc8 x0 x1 x2 x3 x4 x5 x6 x7)
              [x0; x1; x2; x3; x4; x5; x6; x7]) as (leido & Hacc & Hp).
  { exists [[x0]; [x1]; [x2]; [x3]; [x4]; [x5]; [x6]; [x7]].
    split; [repeat constructor | reflexivity]. }
  destruct (unrolled _ a') as [r resto]. cbn [fst snd] in Hacc, Hp.
  apply (suma_perm (leido ++ resto)); [exact Hp |].
  apply suma_de_fold.
  destruct Hacc as (ls & Hls & Hperm). unfold acc_list in Hls.
  pose proof (Forall2_length _ _ _ Hls) as Hlen.
  destruct ls as [| l0 [| l1 [| l2 [| l3 [| l4 [| l5 [| l6 [| l7 [|]]]]]]]]];
    try discriminate Hlen.
  repeat (apply Forall2_cons_1 in Hls as [? Hls]).
  apply (suma_perm (((l0 ++ l1) ++ (l2 ++ l3)) ++ ((l4 ++ l5) ++ (l6 ++ l7)))).
  - rewrite <- Hperm. cbn [concat]. rewrite app_nil_r, <- !app_assoc.
    reflexivity.
  - repeat apply suma_mas; assumption.
Qed.

(** Where a long array is cut: both parts are shorter and not empty. *)
Lemma corte (n : nat) :
  (128 < n -> 0 < n / 2 - (n / 2) mod 8 < n)%nat.
Proof.
  intros H.
  pose proof (Nat.mod_upper_bound (n / 2) 8 ltac:(lia)).
  pose proof (Nat.div_mod_eq n 2).
  pose proof (Nat.mod_upper_bound n 2 ltac:(lia)).
  lia.
Qed.

Lemma pairwise_sum_rec_suma_de depth : forall a,
  a <> [] -> suma_de a (pairwise_sum_rec depth a).
Proof.
  induction depth as [| depth IH]; intros a Ha; cbn [pairwise_sum_rec];
    destruct (List.length a <? 8)%nat eqn:E8;
    try (apply sum_small_suma_de; exact Ha);
    destruct (List.length a <=? PW_BLOCKSIZE)%nat eqn:E128;
    try (apply sum_block_suma_de; exact Ha).
  apply Nat.ltb_ge in E8. apply Nat.leb_gt in E128. unfold PW_BLOCKSIZE in E128.
  set (n2 := (List.length a / 2 - (List.length a / 2) mod 8)%nat).
  assert (H2 : (0 < n2 < List.length a)%nat) by (apply corte; exact E128).
  clearbody n2.
  rewrite <- (firstn_skipn n2 a) at 1.
  apply suma_mas; apply IH.
  - intros E. apply (f_equal (@List.length _)) in E.
    rewrite length_firstn in E. cbn in E. lia.
  - intros E. apply (f_equal (@List.length _)) in E.
    rewrite length_skipn in E. cbn in E. lia.
Qed.

(** A depth of at least the length is the same as any greater depth: the
    branch that stops the recursion for lack of depth is not reached. *)
Lemma pairwise_sum_depth depth : forall depth' a,
  (List.length a <= depth)%nat -> (List.length a <= depth')%nat ->
  pairwise_sum_rec depth a = pairwise_sum_rec depth' a.
Proof.
  induction depth as [| depth IH]; intros depth' a H H'.
  - destruct a; [| cbn in H; lia]. destruct depth'; reflexivity.
  - destruct depth' as [| depth'].
    + destruct a; [| cbn in H'; lia]. reflexivity.
    + cbn [pairwise_sum_rec].
      destruct (List.length a <? 8)%nat eqn:E8; [reflexivity |].
      destruct (List.length a <=? PW_BLOCKSIZE)%nat eqn:E128; [reflexivity |].
      apply Nat.ltb_ge in E8. apply Nat.leb_gt in E128.
      unfold PW_BLOCKSIZE in E128.
      set (n2 := (List.length a / 2 - (List.length a / 2) mod 8)%nat).
      assert (H2 : (0 < n2 < List.length a)%nat) by (apply corte; exact E128).
      clearbody n2.
      f_equal; apply IH; rewrite ?length_firstn, ?length_skipn; lia.
Qed.

Lemma ndarray_sum_suma_de a : suma_de a (ndarray_sum a).
Proof.
  destruct a as [| x a]; [constructor |].
  unfold ndarray_sum. rewrite add_neg_zero_l.
  apply pairwise_sum_rec_suma_de. discriminate.
Qed.

Lemma map_fillna0_nonneg s : Forall nonneg s -> map fillna0 s = s.
Proof.
  induction 1 as [| f s Hf Hs IH]; cbn; [reflexivity |].
  rewrite fillna0_nonneg by exact Hf. f_equal. exact IH.
Qed.

(** The total of a column without missing values is a sum of its values. *)
Lemma Series_sum_suma_de s : Forall nonneg s -> suma_de s (Series_sum s).
Proof.
  intros H. unfold Series_sum. rewrite (map_fillna0_nonneg s H).
  apply ndarray_sum_suma_de.
Qed.

Lemma Series_sum_nonneg s : Forall nonneg s -> nonneg (Series_sum s).
Proof.
  intros H. apply (suma_de_nonneg s); [exact H | apply Series_sum_suma_de, H].
Qed.

Lemma Series_count_length s : Forall nonneg s -> Series_count s = List.length s.
Proof.
  intros H. unfold Series_count.
  induction H as [| f s Hf Hs IH]; cbn; [reflexivity |].
  apply nonneg_sign_free in Hf.
  destruct f; cbn in *; try contradiction; rewrite IH; reflexivity.
Qed.

Lemma suma_Z_app ks1 ks2 : suma_Z (ks1 ++ ks2) = suma_Z ks1 + suma_Z ks2.
Proof. unfold suma_Z. induction ks1 as [| k ks1 IH]; cbn; lia. Qed.

Lemma suma_Z_nonneg ks : Forall (fun k => 0 <= k) ks -> 0 <= suma_Z ks.
Proof. unfold suma_Z. induction 1; cbn; lia. Qed.

Lemma suma_Z_Permutation ks ks' : Permutation ks ks' -> suma_Z ks = suma_Z ks'.
Proof. unfold suma_Z. induction 1; cbn; lia. Qed.

(** Whole amounts whose exact sum is below [2^53] are added without any
    rounding, in whatever order: every sum of them is the exact sum. *)
Lemma suma_de_enteros l t :
  suma_de l t ->
  forall ks, l = map of_Z ks -> Forall (fun k => 0 <= k) ks ->
  suma_Z ks < 2 ^ 53 -> t = of_Z (suma_Z ks).
Proof.
  induction 1 as [| x | l1 l2 a b H1 IH1 H2 IH2 | l l' a Hp H IH];
    intros ks E Hks Hsum.
  - destruct ks; [reflexivity | discriminate].
  - destruct ks as [| k [| ? ?]]; try discriminate.
    injection E as ->. cbn. rewrite Z.add_0_r. reflexivity.
  - symmetry in E. apply map_eq_app in E as (ks1 & ks2 & -> & E1 & E2).
    apply Forall_app in Hks as [Hk1 Hk2].
    pose proof (suma_Z_nonneg ks1 Hk1). pose proof (suma_Z_nonneg ks2 Hk2).
    rewrite suma_Z_app in Hsum |- *.
    rewrite (IH1 ks1), (IH2 ks2) by (auto; lia).
    apply add_of_Z; lia.
  - subst l'. apply Permutation_map_inv in Hp as (ks' & -> & Hp').
    rewrite (suma_Z_Permutation ks ks' Hp') in Hsum |- *.
    apply IH; [reflexivity | | exact Hsum].
    rewrite <- Hp'. exact Hks.
Qed.

Lemma delta_pct_counts c p :
  0 <= c < overflow_threshold -> 0 <= p ->
  exists f, delta_pct (VInt c) (VInt p) = Ok (VFloat f).
Proof.
  intros Hc Hp. unfold delta_pct. cbn [in_0_None pd_isna].
  rewrite orb_false_r. destruct (Z.eqb_spec p 0) as [-> | Hp0]; [eauto |].
  cbn [py_sub bind py_truediv]. destruct (Z.eqb_spec p 0); [contradiction |].
  pose proof threshold_above_machine as T.
  assert (overflow_threshold <= overflow_threshold * Z.abs p) by nia.
  assert (Z.abs p < overflow_threshold * Z.abs p) by nia.
  destruct (Z.leb_spec (overflow_threshold * Z.abs p) (Z.abs (c - p))); [lia |].
  cbn [bind py_mul]. change (float_of_int 100) with (Ok (of_Z 100)).
  cbn [bind]. eauto.
Qed.

Lemma delta_pct_floats a p :
  exists f, delta_pct (VFloat a) (VFloat p) = Ok (VFloat f).
Proof. apply delta_pct_total; [discriminate | exact I | exact I]. Qed.

Lemma comparacion_cases df_full rango modo_comp :
  (modo_comp = "Sin comparación"%string
   /\ comparacion df_full rango modo_comp
      = Ok (None, (VFloat nan, VFloat nan, VFloat nan)))
  \/ (modo_comp <> "Sin comparación"%string
      /\ exists prev,
           periodo_anterior df_full rango
             (if String.eqb modo_comp "Periodo anterior" then "dias"%string
              else "anio"%string) = Ok prev
           /\ comparacion df_full rango modo_comp = Ok (Some prev, agregados prev)).
Proof.
  unfold comparacion.
  destruct (String.eqb_spec modo_comp "Sin comparación") as [E | E]; cbn [negb].
  - left. auto.
  - right. split; [exact E |]. rewrite periodo_anterior_filter. cbn [bind]. eauto.
Qed.

Lemma kpis_ok df_full df rango modo_comp :
  Z.of_nat (List.length df) < overflow_threshold ->
  exists k,
    kpis df_full df rango modo_comp = Ok k
    /\ (tot k, avg k, cnt k) = agregados df
    /\ comparacion df_full rango modo_comp
       = Ok (prev_df k, (prev_tot k, prev_avg k, prev_cnt k))
    /\ delta_pct (tot k) (prev_tot k) = Ok (pct_tot k)
    /\ delta_pct (avg k) (prev_avg k) = Ok (pct_avg k)
    /\ delta_pct (cnt k) (prev_cnt k) = Ok (pct_cnt k).
Proof.
  intros Hlen. unfold kpis. unfold agregados at 1.
  destruct (comparacion_cases df_full rango modo_comp)
    as [[_ ->] | [_ (prev & _ & ->)]]; cbn [bind].
  - eexists. split_and!; reflexivity.
  - unfold agregados at 1.
    destruct (delta_pct_floats (Series_sum (column Ventas df))
                (Series_sum (column Ventas prev))) as [f1 E1].
    destruct (delta_pct_floats (Series_mean (column Ventas df))
                (Series_mean (column Ventas prev))) as [f2 E2].
    destruct (delta_pct_counts (Z.of_nat (List.length df))
                (Z.of_nat (List.length prev))) as [f3 E3]; [lia | lia |].
    unfold shape0. rewrite E1, E2, E3. cbn [bind].
    eexists. split_and!; try reflexivity; cbn; assumption.
Qed.

Lemma filter_length_le {A} (p : A -> bool) (l : list A) :
  (List.length (List.filter p l) <= List.length l)%nat.
Proof. induction l as [| x l IH]; cbn; [lia |]. destruct (p x); cbn; lia. Qed.

Lemma dashboard_ok df_full rango regiones categorias modo_comp :
  Z.of_nat (List.length df_full) < 2 ^ 63 ->
  exists df k,
    dashboard df_full rango regiones categorias modo_comp = Ok (df, k)
    /\ filtrado_principal df_full rango regiones categorias = Ok df
    /\ kpis df_full df rango modo_comp = Ok k.
Proof.
  intros Hlen. unfold dashboard. rewrite filtrado_principal_filter. cbn [bind].
  set (df := List.filter _ df_full).
  destruct (kpis_ok df_full df rango modo_comp) as (k & Hk & _).
  { pose proof (filter_length_le (incluido_b rango regiones categorias) df_full).
    pose proof threshold_above_machine. fold df in H. lia. }
  rewrite Hk. cbn [bind]. eauto.
Qed.

(** ** The currency formatter *)

Lemma append_cons c s t : (String c s ++ t)%string = String c (s ++ t).
Proof. reflexivity. Qed.

Lemma append_nil t : (EmptyString ++ t)%string = t.
Proof. reflexivity. Qed.

Lemma replace_app old new s t :
  replace old new (s ++ t) = (replace old new s ++ replace old new t)%string.
Proof.
  induction s as [| c s IH]; [reflexivity |].
  rewrite append_cons. cbn [replace]. rewrite append_cons, IH. reflexivity.
Qed.

Lemma intercambio_app s t :
  intercambio (s ++ t) = (intercambio s ++ intercambio t)%string.
Proof. unfold intercambio. rewrite !replace_app. reflexivity. Qed.

Lemma intercambio_cons_digit c s :
  is_digit c = true -> intercambio (String c s) = String c (intercambio s).
Proof.
  intros H. unfold intercambio. cbn [replace].
  destruct (Ascii.eqb_spec c ","); [subst; discriminate |].
  destruct (Ascii.eqb_spec c "."); [subst; discriminate |].
  destruct (Ascii.eqb_spec c "X"); [subst; discriminate |].
  reflexivity.
Qed.

Lemma intercambio_digits s : all_digits s = true -> intercambio s = s.
Proof.
  induction s as [| c s IH]; cbn [all_digits]; [reflexivity |].
  intros H. apply andb_true_iff in H as [Hc Hs].
  rewrite intercambio_cons_digit by exact Hc. rewrite IH by exact Hs.
  reflexivity.
Qed.

Lemma intercambio_group3 s :
  all_digits s = true -> intercambio (group3 "," s) = group3 "." s.
Proof.
  induction s as [| c s IH]; cbn [all_digits group3]; [reflexivity |].
  intros H. apply andb_true_iff in H as [Hc Hs].
  rewrite intercambio_cons_digit by exact Hc. f_equal.
  destruct (negb (Nat.eqb (String.length s) 0)
            && Nat.eqb (String.length s mod 3) 0).
  - change (String "," (group3 "," s)) with ("," ++ group3 "," s)%string.
    rewrite intercambio_app, IH by exact Hs. reflexivity.
  - apply IH, Hs.
Qed.

Lemma is_digit_digit n : 0 <= n < 10 -> is_digit (digit n) = true.
Proof.
  intros H. unfold digit.
  assert (K : (Z.to_nat n < 10)%nat) by lia.
  generalize dependent (Z.to_nat n). intros k K.
  do 10 (destruct k as [| k]; [reflexivity |]). lia.
Qed.

Lemma all_digits_app s t :
  all_digits (s ++ t) = all_digits s && all_digits t.
Proof.
  induction s as [| c s IH]; [reflexivity |].
  rewrite append_cons. cbn [all_digits]. rewrite IH, andb_assoc. reflexivity.
Qed.

Lemma all_digits_fixed w n : all_digits (digits_fixed w n) = true.
Proof.
  revert n. induction w as [| w IH]; intros n; cbn [digits_fixed]; [reflexivity |].
  rewrite all_digits_app, IH. cbn [all_digits andb].
  rewrite is_digit_digit; [reflexivity |]. apply Z.mod_pos_bound. lia.
Qed.

Lemma all_digits_uint u :
  all_digits (DecimalString.NilEmpty.string_of_uint u) = true.
Proof. induction u; cbn; auto. Qed.

Lemma all_digits_digits n : all_digits (digits n) = true.
Proof.
  unfold digits, DecimalString.NilZero.string_of_uint.
  generalize (N.to_uint (Z.to_N n)). intros u.
  destruct u; [reflexivity | ..];
    match goal with
    | |- all_digits (DecimalString.NilEmpty.string_of_uint ?v) = true =>
        apply (all_digits_uint v)
    end.
Qed.

Lemma intercambio_sign s : intercambio (sign_str s) = sign_str s.
Proof. destruct s; reflexivity. Qed.

Lemma intercambio_fixed n dec :
  intercambio (fixed_str "," "." n dec) = fixed_str "." "," n dec.
Proof.
  unfold fixed_str. rewrite intercambio_app.
  rewrite intercambio_group3 by apply all_digits_digits. f_equal.
  destruct dec as [| dec]; [reflexivity |].
  match goal with
  | |- intercambio (String ?c ?s) = _ =>
      change (String c s) with (String c EmptyString ++ s)%string
  end.
  rewrite intercambio_app.
  rewrite (intercambio_digits (digits_fixed _ _)) by apply all_digits_fixed.
  reflexivity.
Qed.

Lemma intercambio_format f dec :
  intercambio (format_f "," "." f dec) = formato_es f dec.
Proof.
  unfold formato_es.
  destruct f as [s | s | | s m e]; cbn [format_f];
    rewrite ?intercambio_app, ?intercambio_sign, ?intercambio_fixed;
    reflexivity.
Qed.

Lemma fmt_moneda_float f dec :
  is_nan f = false ->
  fmt_moneda (VFloat f) dec = Ok ("$" ++ formato_es f dec)%string.
Proof.
  intros H. unfold fmt_moneda. cbn [pd_isna]. rewrite H.
  cbn [py_format bind]. fold (intercambio (format_f "," "." f dec)).
  rewrite intercambio_format. reflexivity.
Qed.

Lemma fmt_moneda_int z dec :
  - 2 ^ 63 <= z < 2 ^ 63 ->
  fmt_moneda (VInt z) dec = Ok ("$" ++ formato_es (of_Z z) dec)%string.
Proof.
  intros H. unfold fmt_moneda. cbn [pd_isna py_format].
  rewrite (float_of_int_machine z H). cbn [bind].
  fold (intercambio (format_f "," "." (of_Z z) dec)).
  rewrite intercambio_format. reflexivity.
Qed.

(** ** The frame of [get_data] *)

Lemma index_DataFrame_of_rows rows :
  index (DataFrame_of_rows rows) = seq 0 (List.length rows).
Proof.
  unfold index, DataFrame_of_rows. generalize 0%nat.
  induction rows as [| r rows IH]; intros n; cbn; [reflexivity |].
  f_equal. apply IH.
Qed.

Lemma NoDup_index_DataFrame_of_rows rows : NoDup (index (DataFrame_of_rows rows)).
Proof. rewrite index_DataFrame_of_rows. apply NoDup_seq. Qed.

Ltac solve_valid := repeat split; vm_compute; discriminate.

Lemma valid_2025_06_01 : valid (d 2025 6 1).
Proof. solve_valid. Defined.

Lemma valid_2025_06_10 : valid (d 2025 6 10).
Proof. solve_valid. Defined.

(** ** Previous-period window *)

(** C1: for every current range of valid dates with start <= end, the
    resolver in mode "dias" yields the window that ends on the day before
    the current start and has as many days as the current range; the two
    windows are adjacent and do not overlap, and the bounds of the prior
    window are the dates of those days.  The range 2025-06-01 ..
    2025-06-10 yields 2025-05-22 .. 2025-05-31. *)
Theorem C1_periodo_anterior_dias (start end_ : date) :
  valid start -> valid end_ -> date_leb start end_ = true ->
  let ini := to_datetime start in
  let fin := to_datetime end_ in
  let dayCount := days_between fin ini + 1 in
  let w := ventana_anterior (start, end_) "dias" in
  snd w = sub_days ini 1
  /\ fst w = sub_days (snd w) (dayCount - 1)
  /\ days_between (snd w) (fst w) + 1 = dayCount
  /\ 1 <= dayCount
  /\ snd w < ini
  /\ snd w + 1 = ini
  /\ valid (dt_date (snd w))
  /\ toordinal (dt_date (snd w)) = toordinal start - 1
  /\ valid (dt_date (fst w))
  /\ toordinal (dt_date (fst w)) = toordinal start - dayCount
  /\ (forall df, periodo_anterior df (start, end_) "dias"
                 = Ok (List.filter (en_ventana w) df))
  /\ ventana_anterior (d 2025 6 1, d 2025 6 10) "dias"
     = (to_datetime (d 2025 5 22), to_datetime (d 2025 5 31))
  /\ dt_date (fst (ventana_anterior (d 2025 6 1, d 2025 6 10) "dias"))
     = d 2025 5 22
  /\ dt_date (snd (ventana_anterior (d 2025 6 1, d 2025 6 10) "dias"))
     = d 2025 5 31.
Proof.
  intros Hs He Hle ini fin dayCount w.
  assert (Hord : ini <= fin).
  { rewrite (date_leb_toordinal _ _ Hs He) in Hle. apply Z.leb_le in Hle.
    exact Hle. }
  subst w. unfold ventana_anterior. cbn [fst snd String.eqb Ascii.eqb Bool.eqb].
  fold ini fin. unfold sub_days, days_between in *. cbn [fst snd].
  pose proof (toordinal_fromordinal (ini - 1)) as [V1 E1].
  pose proof (toordinal_fromordinal (ini - 1 - (fin - ini + 1 - 1))) as [V2 E2].
  unfold dt_date. fold (to_datetime start) in *. fold ini.
  split_and!; try lia; try reflexivity; try assumption.
  intros df. rewrite periodo_anterior_filter. reflexivity.
Qed.

Lemma C1_witness :
  valid (d 2025 6 1) /\ valid (d 2025 6 10)
  /\ date_leb (d 2025 6 1) (d 2025 6 10) = true
  /\ snd (ventana_anterior (d 2025 6 1, d 2025 6 10) "dias")
     = sub_days (to_datetime (d 2025 6 1)) 1.
Proof.
  split_and!;
    [exact valid_2025_06_01 | exact valid_2025_06_10 | reflexivity |].
  exact (proj1 (C1_periodo_anterior_dias (d 2025 6 1) (d 2025 6 10)
                  valid_2025_06_01 valid_2025_06_10 eq_refl)).
Defined.

(** ** Delta calculator *)

Lemma delta_pct_110_100 :
  delta_pct (VInt 110) (VInt 100) = Ok (VFloat (of_Z 10))
  /\ delta_pct (VFloat (of_Z 110)) (VFloat (of_Z 100)) = Ok (VFloat (of_Z 10)).
Proof. split; reflexivity. Qed.

Lemma delta_pct_90_100 :
  delta_pct (VInt 90) (VInt 100) = Ok (VFloat (of_Z (-10)))
  /\ delta_pct (VFloat (of_Z 90)) (VFloat (of_Z 100)) = Ok (VFloat (of_Z (-10))).
Proof. split; reflexivity. Qed.

(** C2: for every numeric current value and every prior value (integers of
    machine size), [delta_pct] raises no exception; it returns NaN when the
    prior value is None, NaN or zero, and the signed percentage
    (current - prior) / prior * 100 otherwise.  A missing or zero prior value
    gives NaN whatever the current value is.  deltaPct(110, 100) = 10.0 and
    deltaPct(90, 100) = -10.0. *)
Theorem C2_delta_pct (actual pasado : value) :
  actual <> VNone -> machine_int actual -> machine_int pasado ->
  (exists f, delta_pct actual pasado = Ok (VFloat f))
  /\ (sin_referencia pasado -> delta_pct actual pasado = Ok (VFloat nan))
  /\ (~ sin_referencia pasado ->
      delta_pct actual pasado = Ok (VFloat (porcentaje actual pasado)))
  /\ (forall x p, sin_referencia p -> delta_pct x p = Ok (VFloat nan))
  /\ delta_pct (VInt 110) (VInt 100) = Ok (VFloat (of_Z 10))
  /\ delta_pct (VFloat (of_Z 110)) (VFloat (of_Z 100)) = Ok (VFloat (of_Z 10))
  /\ delta_pct (VInt 90) (VInt 100) = Ok (VFloat (of_Z (-10)))
  /\ delta_pct (VFloat (of_Z 90)) (VFloat (of_Z 100)) = Ok (VFloat (of_Z (-10))).
Proof.
  intros Ha Ma Mp. split_and!.
  - apply delta_pct_total; assumption.
  - apply delta_pct_sin_referencia.
  - apply delta_pct_porcentaje; assumption.
  - intros x p. apply delta_pct_sin_referencia.
  - apply delta_pct_110_100.
  - apply delta_pct_110_100.
  - apply delta_pct_90_100.
  - apply delta_pct_90_100.
Qed.

Lemma C2_witness :
  VInt 120 <> VNone /\ machine_int (VInt 120) /\ machine_int (VInt 80)
  /\ exists f, delta_pct (VInt 120) (VInt 80) = Ok (VFloat f).
Proof.
  assert (H1 : VInt 120 <> VNone) by discriminate.
  assert (H2 : machine_int (VInt 120)) by (unfold machine_int; lia).
  assert (H3 : machine_int (VInt 80)) by (unfold machine_int; lia).
  split_and!; [exact H1 | exact H2 | exact H3 |].
  exact (proj1 (C2_delta_pct (VInt 120) (VInt 80) H1 H2 H3)).
Defined.

(** ** Main filter *)

(** C3: the filter returns, as a new object of the store, exactly the
    records of the dataset whose date lies in the range and whose category and
    region are selected; they come in the order of the dataset, no index
    label twice when the dataset has none twice, and the object bound to
    [df_full], like every other object of the store, is left as it was. *)
Theorem C3_filtrado_principal (h : store) (l_full : nat) (df_full : DataFrame)
    (rango : date * date) (regiones categorias : list string) :
  h !! l_full = Some df_full ->
  exists l_df h' df,
    filtrado_principal_store h l_full rango regiones categorias = Ok (l_df, h')
    /\ filtrado_principal df_full rango regiones categorias = Ok df
    /\ h' !! l_df = Some df
    /\ (forall x, x ∈ df <-> x ∈ df_full /\ incluido rango regiones categorias (snd x))
    /\ df `sublist_of` df_full
    /\ (NoDup (index df_full) -> NoDup (index df))
    /\ l_df <> l_full
    /\ h' !! l_full = Some df_full
    /\ (forall l, is_Some (h !! l) -> h' !! l = h !! l).
Proof.
  intros Hfull.
  set (df := List.filter (incluido_b rango regiones categorias) df_full).
  unfold filtrado_principal_store. rewrite Hfull.
  rewrite mascara_map, getitem_mask_map. cbn [bind]. fold df.
  destruct (alloc df h) as [l_sel h1] eqn:E1.
  destruct (alloc (copy df) h1) as [l_df h2] eqn:E2.
  assert (K1 : forall l, is_Some (h !! l) -> h1 !! l = h !! l).
  { intros l Hl. pose proof (alloc_other df h l Hl) as K. rewrite E1 in K. exact K. }
  assert (K2 : forall l, is_Some (h1 !! l) -> h2 !! l = h1 !! l).
  { intros l Hl. pose proof (alloc_other (copy df) h1 l Hl) as K.
    rewrite E2 in K. exact K. }
  assert (K : forall l, is_Some (h !! l) -> h2 !! l = h !! l).
  { intros l Hl. rewrite K2, K1; auto. rewrite K1; auto. }
  exists l_df, h2, df. split_and!.
  - reflexivity.
  - rewrite filtrado_principal_filter. reflexivity.
  - pose proof (alloc_lookup (copy df) h1) as L. rewrite E2 in L. exact L.
  - intros x. unfold df. rewrite elem_of_filter, incluido_b_true. tauto.
  - apply filter_sublist.
  - intros Hnd. apply (sublist_NoDup _ _ Hnd).
    apply sublist_index, filter_sublist.
  - intros ->. pose proof (alloc_fresh (copy df) h1) as F. rewrite E2 in F.
    cbn in F. rewrite K1, Hfull in F by (rewrite Hfull; eauto). discriminate.
  - rewrite K, Hfull; eauto.
  - exact K.
Qed.

Lemma C3_witness :
  ({[ 0%nat := df_ejemplo ]} : store) !! 0%nat = Some df_ejemplo
  /\ exists l_df h' df,
       filtrado_principal_store {[ 0%nat := df_ejemplo ]} 0 rango_ejemplo
         ["Norte"; "Sur"]%string ["Ropa"]%string = Ok (l_df, h')
       /\ filtrado_principal df_ejemplo rango_ejemplo
            ["Norte"; "Sur"]%string ["Ropa"]%string = Ok df
       /\ h' !! l_df = Some df.
Proof.
  assert (H : ({[ 0%nat := df_ejemplo ]} : store) !! 0%nat = Some df_ejemplo)
    by apply lookup_singleton_eq.
  split; [exact H |].
  destruct (C3_filtrado_principal {[ 0%nat := df_ejemplo ]} 0 df_ejemplo
              rango_ejemplo ["Norte"; "Sur"]%string ["Ropa"]%string H)
    as (l_df & h' & df & H1 & H2 & H3 & _).
  exists l_df, h', df. split_and!; assumption.
Defined.

Example filtrado_ejemplo :
  filtrado_principal df_ejemplo rango_ejemplo ["Norte"; "Sur"]%string
    ["Ropa"]%string
  = Ok [(0%nat, mkRow (to_datetime (d 2025 6 3)) "Ropa" "Norte" (of_Z 100))].
Proof. reflexivity. Qed.

(** ** Comparison subset *)

(** C4: under a comparison mode other than "Sin comparación", the comparison
    subset bound to [prev_df] consists of exactly the records of the full
    dataset whose date lies in the resolved prior window; the selected
    regions and categories play no part, so a record in the window belongs to
    it whatever its category and region are. *)
Theorem C4_prev_df (df_full : DataFrame) (rango : date * date)
    (regiones categorias : list string) (modo_comp : string) :
  modo_comp <> "Sin comparación"%string ->
  Z.of_nat (List.length df_full) < 2 ^ 63 ->
  let modo_calc :=
    if String.eqb modo_comp "Periodo anterior" then "dias"%string
    else "anio"%string in
  let w := ventana_anterior rango modo_calc in
  exists df k prev,
    dashboard df_full rango regiones categorias modo_comp = Ok (df, k)
    /\ prev_df k = Some prev
    /\ periodo_anterior df_full rango modo_calc = Ok prev
    /\ (forall x, x ∈ prev <-> x ∈ df_full /\ fst w <= Fecha (snd x) <= snd w)
    /\ (forall x, x ∈ df_full -> fst w <= Fecha (snd x) <= snd w ->
          Categoría (snd x) ∉ categorias \/ Región (snd x) ∉ regiones ->
          x ∈ prev /\ x ∉ df)
    /\ (prev_tot k, prev_avg k, prev_cnt k) = agregados prev.
Proof.
  intros Hmodo Hlen modo_calc w.
  destruct (dashboard_ok df_full rango regiones categorias modo_comp Hlen)
    as (df & k & Hd & Hf & Hk).
  destruct (kpis_ok df_full df rango modo_comp) as (k' & Hk' & _ & Hc & _).
  { rewrite filtrado_principal_filter in Hf. injection Hf as <-.
    pose proof (filter_length_le (incluido_b rango regiones categorias) df_full).
    pose proof threshold_above_machine. lia. }
  rewrite Hk in Hk'. injection Hk' as <-.
  destruct (comparacion_cases df_full rango modo_comp)
    as [[E _] | [_ (prev & Hp & Hc')]]; [contradiction |].
  rewrite Hc' in Hc. injection Hc as E1 E2 E3 E4.
  assert (Hmem : forall x,
             x ∈ prev <-> x ∈ df_full /\ fst w <= Fecha (snd x) <= snd w).
  { intros x. fold modo_calc in Hp. rewrite periodo_anterior_filter in Hp.
    injection Hp as <-. fold w. rewrite elem_of_filter, en_ventana_true.
    reflexivity. }
  exists df, k, prev. split_and!.
  - exact Hd.
  - symmetry. exact E1.
  - exact Hp.
  - exact Hmem.
  - intros x Hx Hw Hout. split; [apply Hmem; auto |].
    rewrite filtrado_principal_filter in Hf. injection Hf as <-.
    rewrite elem_of_filter, incluido_b_true. unfold incluido. tauto.
  - rewrite <- E2, <- E3, <- E4. reflexivity.
Qed.

Lemma C4_witness :
  "Periodo anterior"%string <> "Sin comparación"%string
  /\ Z.of_nat (List.length df_ejemplo) < 2 ^ 63
  /\ exists df k prev,
       dashboard df_ejemplo rango_ejemplo ["Norte"]%string ["Ropa"]%string
         "Periodo anterior" = Ok (df, k)
       /\ prev_df k = Some prev
       /\ periodo_anterior df_ejemplo rango_ejemplo "dias" = Ok prev.
Proof.
  assert (H1 : "Periodo anterior"%string <> "Sin comparación"%string)
    by discriminate.
  assert (H2 : Z.of_nat (List.length df_ejemplo) < 2 ^ 63) by reflexivity.
  split_and!; [exact H1 | exact H2 |].
  destruct (C4_prev_df df_ejemplo rango_ejemplo ["Norte"]%string
              ["Ropa"]%string "Periodo anterior" H1 H2)
    as (df & k & prev & Ha & Hb & Hc & _).
  exists df, k, prev. split_and!; assumption.
Defined.

(** The record of 2025-05-25 has category "Hogar" and region "Sur", neither
    of them selected: it is left out of [df] and counted in [prev_df]. *)
Example comparacion_ejemplo :
  exists k,
    dashboard df_ejemplo rango_ejemplo ["Norte"]%string ["Ropa"]%string
      "Periodo anterior"
    = Ok ([(0%nat, mkRow (to_datetime (d 2025 6 3)) "Ropa" "Norte" (of_Z 100))],
          k)
    /\ prev_df k
       = Some [(1%nat, mkRow (to_datetime (d 2025 5 25)) "Hogar" "Sur" (of_Z 250))]
    /\ prev_tot k = VFloat (of_Z 250)
    /\ prev_cnt k = VInt 1.
Proof. eexists. split_and!; reflexivity. Qed.

(** ** Same range of the year before *)

(** C5: for every current range of valid dates, the resolver in mode "anio"
    moves both bounds one calendar year back: the year field decreases by
    one, the month is kept, and so is the day unless the month of the year
    before is shorter (29 February).  The offset is not a fixed number of
    days: 2024-06-01 .. 2024-06-10 yields 2023-06-01 .. 2023-06-10, which is
    366 days earlier. *)
Theorem C5_periodo_anterior_anio (start end_ : date) :
  valid start -> valid end_ ->
  let w := ventana_anterior (start, end_) "anio" in
  w = (to_datetime (un_anio_antes start), to_datetime (un_anio_antes end_))
  /\ dt_date (fst w) = un_anio_antes start
  /\ dt_date (snd w) = un_anio_antes end_
  /\ (forall df, periodo_anterior df (start, end_) "anio"
                 = Ok (List.filter (en_ventana w) df))
  /\ ventana_anterior (d 2024 6 1, d 2024 6 10) "anio"
     = (to_datetime (d 2023 6 1), to_datetime (d 2023 6 10))
  /\ days_between (to_datetime (d 2024 6 1))
       (fst (ventana_anterior (d 2024 6 1, d 2024 6 10) "anio")) = 366
  /\ days_between (to_datetime (d 2023 6 1))
       (fst (ventana_anterior (d 2023 6 1, d 2023 6 10) "anio")) = 365.
Proof.
  intros Hs He w.
  assert (Hw : w = (to_datetime (un_anio_antes start),
                    to_datetime (un_anio_antes end_))).
  { subst w. unfold ventana_anterior.
    cbn [fst snd String.eqb Ascii.eqb Bool.eqb].
    rewrite !sub_years_to_datetime by assumption. reflexivity. }
  split_and!; try reflexivity.
  - exact Hw.
  - rewrite Hw. cbn [fst].
    apply dt_date_to_datetime, un_anio_antes_valid, Hs.
  - rewrite Hw. cbn [snd].
    apply dt_date_to_datetime, un_anio_antes_valid, He.
  - intros df. rewrite periodo_anterior_filter. reflexivity.
Qed.

Lemma valid_2024_06_01 : valid (d 2024 6 1).
Proof. solve_valid. Defined.

Lemma valid_2024_06_10 : valid (d 2024 6 10).
Proof. solve_valid. Defined.

Lemma C5_witness :
  valid (d 2024 6 1) /\ valid (d 2024 6 10)
  /\ ventana_anterior (d 2024 6 1, d 2024 6 10) "anio"
     = (to_datetime (un_anio_antes (d 2024 6 1)),
        to_datetime (un_anio_antes (d 2024 6 10))).
Proof.
  split_and!; [exact valid_2024_06_01 | exact valid_2024_06_10 |].
  exact (proj1 (C5_periodo_anterior_anio (d 2024 6 1) (d 2024 6 10)
                  valid_2024_06_01 valid_2024_06_10)).
Defined.

(** The 29th of February falls back on the 28th. *)
Example un_anio_antes_29_feb :
  dt_date (sub_years (to_datetime (d 2024 2 29)) 1) = d 2023 2 28.
Proof. reflexivity. Qed.

(** ** Aggregates *)

(** C6: for every subset whose amounts are non-negative, the aggregator
    returns a total that is a sum of the amounts of the subset (each amount
    added once, with binary64 additions), the number of rows as count, and
    as mean the total divided by the count when there is a row, NaN when
    there is none; count and total are non-negative, as is every sum of the
    amounts whatever the order of the additions.  When the amounts are whole
    numbers whose exact sum is below 2^53, the total is that exact sum.  The
    empty subset gives 0.0, NaN and 0; on the eight sample rows, whose
    amounts have two decimals, the total is 7824.280000000001, the result of
    the eight accumulators. *)
Theorem C6_agregados (df : DataFrame) :
  Forall (fun x => nonneg (Ventas (snd x))) df ->
  let amounts := column Ventas df in
  let n := Z.of_nat (List.length df) in
  exists tot avg : float,
    agregados df = (VFloat tot, VFloat avg, VInt n)
    /\ suma_de amounts tot
    /\ avg = (if 0 <? n then div tot (of_Z n) else nan)
    /\ 0 <= n
    /\ nonneg tot
    /\ (forall a, suma_de amounts a -> nonneg a)
    /\ (forall ks, amounts = map of_Z ks -> Forall (fun k => 0 <= k) ks ->
        suma_Z ks < 2 ^ 53 -> tot = of_Z (suma_Z ks))
    /\ agregados [] = (VFloat zero, VFloat nan, VInt 0)
    /\ agregados df_ocho
       = (VFloat (S754_finite false 8602886838975202 (-40)),
          VFloat (S754_finite false 8602886838975202 (-43)),
          VInt 8).
Proof.
  intros H amounts n.
  assert (Ha : Forall nonneg amounts).
  { subst amounts. unfold column. induction H; cbn; constructor; assumption. }
  assert (Hn : List.length amounts = List.length df)
    by (subst amounts; unfold column; apply length_map).
  exists (Series_sum amounts), (Series_mean amounts).
  split_and!; try lia.
  - reflexivity.
  - apply Series_sum_suma_de, Ha.
  - unfold Series_mean. rewrite (Series_count_length amounts Ha), Hn. fold n.
    destruct (List.length df) as [| m] eqn:E; [reflexivity |].
    subst n. destruct (Z.ltb_spec 0 (Z.of_nat (S m))); [reflexivity | lia].
  - apply Series_sum_nonneg, Ha.
  - intros a. apply suma_de_nonneg, Ha.
  - intros ks E. apply (suma_de_enteros amounts); [| exact E].
    apply Series_sum_suma_de, Ha.
  - reflexivity.
  - vm_compute. reflexivity.
Qed.

Lemma C6_witness :
  Forall (fun x => nonneg (Ventas (snd x))) df_ocho
  /\ exists tot avg : float,
       agregados df_ocho = (VFloat tot, VFloat avg, VInt 8)
       /\ suma_de (column Ventas df_ocho) tot
       /\ avg = div tot (of_Z 8)
       /\ nonneg tot.
Proof.
  assert (H : Forall (fun x => nonneg (Ventas (snd x))) df_ocho)
    by (repeat constructor).
  split; [exact H |].
  destruct (C6_agregados df_ocho H) as (tot & avg & E & Hs & Ea & _ & Ht & _).
  exists tot, avg. split_and!; assumption.
Defined.

Example agregados_ejemplo :
  agregados df_ejemplo
  = (VFloat (of_Z 475),
     VFloat (binary_normalize prec emax 475 (-2) false),
     VInt 4).
Proof. reflexivity. Qed.

(** On the eight sample rows the total is 7824.280000000001 and the card of
    the mean reads 978,04; the amounts added in row order give 7824.28, a
    mean that would read 978,03. *)
Example agregados_ocho_en_orden :
  suma (column Ventas df_ocho) = S754_finite false 8602886838975201 (-40)
  /\ fmt_moneda (snd (fst (agregados df_ocho))) 2 = Ok "$978,04"%string
  /\ fmt_moneda (VFloat (div (suma (column Ventas df_ocho)) (of_Z 8))) 2
     = Ok "$978,03"%string.
Proof. split_and!; vm_compute; reflexivity. Qed.

(** ** Inverted range *)

Lemma incluido_b_inverted rango regiones categorias x :
  date_leb (fst rango) (snd rango) = false ->
  incluido_b rango regiones categorias x = false.
Proof.
  intros H. unfold incluido_b.
  destruct (date_leb (fst rango) (dt_date (Fecha (snd x)))) eqn:E1;
    [| reflexivity].
  destruct (date_leb (dt_date (Fecha (snd x))) (snd rango)) eqn:E2;
    [| reflexivity].
  rewrite (date_leb_trans _ _ _ E1 E2) in H. discriminate.
Qed.

Lemma filter_none {A} (p : A -> bool) (l : list A) :
  (forall x, p x = false) -> List.filter p l = [].
Proof.
  intros H. induction l as [| x l IH]; cbn; [reflexivity |].
  rewrite H. exact IH.
Qed.

(** C7: for every range with start > end, the filter returns the empty
    subset, the aggregates are total = 0, count = 0 and mean = NaN, and the
    whole pass (filter, aggregates, comparison and deltas) raises nothing. *)
Theorem C7_rango_invertido (df_full : DataFrame) (rango : date * date)
    (regiones categorias : list string) (modo_comp : string) :
  date_leb (fst rango) (snd rango) = false ->
  filtrado_principal df_full rango regiones categorias = Ok []
  /\ agregados [] = (VFloat zero, VFloat nan, VInt 0)
  /\ exists k,
       dashboard df_full rango regiones categorias modo_comp = Ok ([], k)
       /\ tot k = VFloat zero
       /\ cnt k = VInt 0
       /\ avg k = VFloat nan.
Proof.
  intros H.
  assert (Hf : filtrado_principal df_full rango regiones categorias = Ok []).
  { rewrite filtrado_principal_filter. f_equal. apply filter_none.
    intros x. apply incluido_b_inverted, H. }
  split_and!; [exact Hf | reflexivity |].
  destruct (kpis_ok df_full [] rango modo_comp) as (k & Hk & Ha & _).
  { pose proof threshold_above_machine. cbn. lia. }
  exists k. unfold dashboard. rewrite Hf. cbn [bind]. rewrite Hk. cbn [bind].
  injection Ha as -> -> ->. split_and!; reflexivity.
Qed.

Lemma C7_witness :
  date_leb (fst (d 2025 6 10, d 2025 6 1)) (snd (d 2025 6 10, d 2025 6 1))
  = false
  /\ filtrado_principal df_ejemplo (d 2025 6 10, d 2025 6 1)
       ["Norte"; "Sur"]%string ["Ropa"; "Hogar"]%string = Ok [].
Proof.
  split; [reflexivity |].
  exact (proj1 (C7_rango_invertido df_ejemplo (d 2025 6 10, d 2025 6 1)
                  ["Norte"; "Sur"]%string ["Ropa"; "Hogar"]%string
                  "Periodo anterior" eq_refl)).
Defined.

(** ** Idempotence of the filter *)

(** C8: filtering the filtered subset once more with the same range,
    regions and categories returns that subset again. *)
Theorem C8_filtrado_idempotente (df_full : DataFrame) (rango : date * date)
    (regiones categorias : list string) :
  exists df,
    filtrado_principal df_full rango regiones categorias = Ok df
    /\ filtrado_principal df rango regiones categorias = Ok df.
Proof.
  exists (List.filter (incluido_b rango regiones categorias) df_full).
  rewrite !filtrado_principal_filter, filter_idem. split; reflexivity.
Qed.

(** ** Currency format *)

(** 1234.50 as a binary64 number. *)
Example fmt_moneda_1234_50 :
  fmt_moneda (VFloat (binary_normalize prec emax 2469 (-1) false)) 2
  = Ok "$1.234,50"%string.
Proof. reflexivity. Qed.

(** C9: a missing value (None or NaN) is rendered as the dash; any other
    float, and any integer of machine size, is rendered as "$" followed by
    its fixed-point digits with "." between groups of three integer digits
    and "," before the decimals.  1234.50 with two decimals gives
    "$1.234,50". *)
Theorem C9_fmt_moneda (x : value) (dec : nat) :
  machine_int x ->
  (pd_isna x = true -> fmt_moneda x dec = Ok "—"%string)
  /\ (pd_isna x = false ->
      fmt_moneda x dec = Ok ("$" ++ formato_es (as_float x) dec)%string)
  /\ (forall s m e,
        formato_es (S754_finite s m e) dec
        = (sign_str s
           ++ group3 "." (digits (scaled_round m e dec / 10 ^ Z.of_nat dec))
           ++ match dec with
              | O => ""
              | S _ =>
                  String ","
                    (digits_fixed dec
                       (scaled_round m e dec mod 10 ^ Z.of_nat dec))
              end)%string)
  /\ fmt_moneda (VFloat (binary_normalize prec emax 2469 (-1) false)) 2
     = Ok "$1.234,50"%string
  /\ fmt_moneda (VFloat nan) 2 = Ok "—"%string
  /\ fmt_moneda VNone 2 = Ok "—"%string.
Proof.
  intros Hx. split_and!; try reflexivity.
  - intros H. unfold fmt_moneda. rewrite H. reflexivity.
  - intros H. destruct x as [| z | f]; [discriminate | |].
    + apply fmt_moneda_int, Hx.
    + apply fmt_moneda_float, H.
Qed.

Lemma C9_witness :
  machine_int (VInt 1234567)
  /\ fmt_moneda (VInt 1234567) 2
     = Ok ("$" ++ formato_es (as_float (VInt 1234567)) 2)%string.
Proof.
  assert (H : machine_int (VInt 1234567)) by (unfold machine_int; lia).
  split; [exact H |].
  exact (proj1 (proj2 (C9_fmt_moneda (VInt 1234567) 2 H)) eq_refl).
Defined.

Example fmt_moneda_entero : fmt_moneda (VInt 1234567) 2 = Ok "$1.234.567,00"%string.
Proof. reflexivity. Qed.

(** ** Missing values in the deltas *)

(** C10: a NaN current value gives a NaN delta against every prior value
    (an integer prior being of machine size), without raising; and under
    "Sin comparación" the three prior values are NaN, no comparison frame
    is bound, and the three deltas are NaN. *)
Theorem C10_nan_se_propaga (pasado : value) (df_full df : DataFrame)
    (rango : date * date) :
  machine_int pasado ->
  delta_pct (VFloat nan) pasado = Ok (VFloat nan)
  /\ Series_mean [] = nan
  /\ exists k,
       kpis df_full df rango "Sin comparación" = Ok k
       /\ prev_df k = None
       /\ prev_tot k = VFloat nan
       /\ prev_avg k = VFloat nan
       /\ prev_cnt k = VFloat nan
       /\ pct_tot k = VFloat nan
       /\ pct_avg k = VFloat nan
       /\ pct_cnt k = VFloat nan.
Proof.
  intros Hp. split_and!; [| reflexivity |].
  - destruct (sin_referencia_dec pasado) as [H | H].
    + apply delta_pct_sin_referencia, H.
    + rewrite delta_pct_porcentaje; [| discriminate | exact I | exact Hp | exact H].
      rewrite porcentaje_nan; [reflexivity |].
      intros ->. apply H. left. reflexivity.
  - unfold kpis, agregados, shape0. cbn [comparacion String.eqb Ascii.eqb Bool.eqb negb bind].
    rewrite !(delta_pct_sin_referencia _ (VFloat nan))
      by (right; right; right; reflexivity).
    cbn [bind]. eexists. split_and!; reflexivity.
Qed.

Lemma C10_witness :
  machine_int (VInt 7)
  /\ delta_pct (VFloat nan) (VInt 7) = Ok (VFloat nan).
Proof.
  assert (H : machine_int (VInt 7)) by (unfold machine_int; lia).
  split; [exact H |].
  exact (proj1 (C10_nan_se_propaga (VInt 7) df_ejemplo [] rango_ejemplo H)).
Defined.

(** * Further properties *)

(** ** The sidebar defaults and the windows of the two filters *)

Lemma fold_min_le (s : list Timestamp) t :
  fold_left Z.min s t <= t /\ Forall (fun x => fold_left Z.min s t <= x) s.
Proof.
  revert t. induction s as [| x s IH]; intros t; cbn [fold_left].
  - split; [lia | constructor].
  - destruct (IH (Z.min t x)) as [H1 H2]. split; [lia |].
    constructor; [lia | exact H2].
Qed.

Lemma fold_max_ge (s : list Timestamp) t :
  t <= fold_left Z.max s t /\ Forall (fun x => x <= fold_left Z.max s t) s.
Proof.
  revert t. induction s as [| x s IH]; intros t; cbn [fold_left].
  - split; [lia | constructor].
  - destruct (IH (Z.max t x)) as [H1 H2]. split; [lia |].
    constructor; [lia | exact H2].
Qed.

Lemma Series_min_le s m : Series_min s = Some m -> Forall (fun x => m <= x) s.
Proof.
  destruct s as [| t s]; [discriminate |]. cbn. intros [= <-].
  destruct (fold_min_le s t). constructor; assumption.
Qed.

Lemma Series_max_ge s m : Series_max s = Some m -> Forall (fun x => x <= m) s.
Proof.
  destruct s as [| t s]; [discriminate |]. cbn. intros [= <-].
  destruct (fold_max_ge s t). constructor; assumption.
Qed.

Lemma elem_of_unique_from seen s x :
  x ∈ s -> x ∈ seen \/ x ∈ unique_from seen s.
Proof.
  revert seen. induction s as [| y s IH]; intros seen Hx.
  - inversion Hx.
  - cbn [unique_from]. apply elem_of_cons in Hx as [-> | Hx].
    + destruct (bool_decide (y ∈ seen)) eqn:E.
      * left. apply bool_decide_eq_true in E. exact E.
      * right. left.
    + destruct (bool_decide (y ∈ seen)) eqn:E.
      * apply IH, Hx.
      * destruct (IH (y :: seen) Hx) as [H | H].
        -- apply elem_of_cons in H as [-> | H]; [right; left | left; exact H].
        -- right. right. exact H.
Qed.

Lemma elem_of_unique s x : x ∈ s -> x ∈ unique s.
Proof.
  intros H. destruct (elem_of_unique_from [] s x H) as [K | K]; [| exact K].
  inversion K.
Qed.

Lemma unique_from_subset seen s x : x ∈ unique_from seen s -> x ∈ s /\ x ∉ seen.
Proof.
  revert seen. induction s as [| y s IH]; intros seen; cbn [unique_from].
  - intros H. inversion H.
  - destruct (bool_decide (y ∈ seen)) eqn:E.
    + intros H. destruct (IH _ H). split; [right |]; assumption.
    + apply bool_decide_eq_false in E. intros H.
      apply elem_of_cons in H as [-> | H]; [split; [left | exact E] |].
      destruct (IH _ H) as [H1 H2]. split; [right; exact H1 |].
      intros K. apply H2. right. exact K.
Qed.

Lemma NoDup_unique_from seen s : NoDup (unique_from seen s).
Proof.
  revert seen. induction s as [| y s IH]; intros seen; cbn [unique_from].
  - constructor.
  - destruct (bool_decide (y ∈ seen)); [apply IH |].
    constructor; [| apply IH].
    intros H. destruct (unique_from_subset _ _ _ H) as [_ K].
    apply K. left.
Qed.

Lemma filter_all {A} (p : A -> bool) (l : list A) :
  Forall (fun x => p x = true) l -> List.filter p l = l.
Proof.
  induction 1 as [| x l Hx _ IH]; cbn; [reflexivity |].
  rewrite Hx, IH. reflexivity.
Qed.

(** The date masks of section 6 compare timestamps. *)
Lemma date_leb_dt_date a b : date_leb (dt_date a) (dt_date b) = (a <=? b).
Proof. apply date_leb_fromordinal. Qed.

Lemma to_datetime_dt_date t : to_datetime (dt_date t) = t.
Proof. apply toordinal_fromordinal. Qed.

Lemma date_leb_start d t :
  valid d -> date_leb d (dt_date t) = (to_datetime d <=? t).
Proof.
  intros H. rewrite <- (dt_date_to_datetime d H) at 1.
  apply date_leb_dt_date.
Qed.

Lemma date_leb_end d t :
  valid d -> date_leb (dt_date t) d = (t <=? to_datetime d).
Proof.
  intros H. rewrite <- (dt_date_to_datetime d H) at 1.
  apply date_leb_dt_date.
Qed.

Lemma Forall_column {A} (f : Row -> A) (P : A -> Prop) (df : DataFrame) :
  Forall P (column f df) -> Forall (fun x => P (f (snd x))) df.
Proof.
  unfold column. induction df as [| x df IH]; cbn; intros H; [constructor |].
  inversion H; subst. constructor; auto.
Qed.

Lemma sidebar_inicial_todo_lema (df_full : DataFrame) :
  match sidebar_inicial df_full with
  | Some (rango, regiones, categorias, modo_comp) =>
      df_full <> []
      /\ filtrado_principal df_full rango regiones categorias = Ok df_full
      /\ NoDup regiones /\ NoDup categorias
      /\ modo_comp = "Periodo anterior"%string
  | None => df_full = []
  end.
Proof.
  unfold sidebar_inicial.
  destruct (Series_min (column Fecha df_full)) as [dmin |] eqn:Emin;
    [| destruct df_full; [reflexivity | discriminate]].
  destruct (Series_max (column Fecha df_full)) as [dmax |] eqn:Emax;
    [| destruct df_full; [reflexivity | discriminate]].
  split_and!.
  - intros ->. discriminate.
  - rewrite filtrado_principal_filter. f_equal. apply filter_all.
    pose proof (Forall_column _ _ _ (Series_min_le _ _ Emin)) as Hmin.
    pose proof (Forall_column _ _ _ (Series_max_ge _ _ Emax)) as Hmax.
    rewrite Forall_forall in *. intros x Hx.
    unfold incluido_b. cbn [fst snd]. rewrite !date_leb_dt_date.
    rewrite !andb_true_iff, !Z.leb_le, !bool_decide_eq_true.
    split_and!.
    + apply Hmin, Hx.
    + apply Hmax, Hx.
    + apply elem_of_unique. unfold column.
      apply list_elem_of_In, in_map_iff. exists x. split; [reflexivity |].
      apply list_elem_of_In, Hx.
    + apply elem_of_unique. unfold column.
      apply list_elem_of_In, in_map_iff. exists x. split; [reflexivity |].
      apply list_elem_of_In, Hx.
  - apply NoDup_unique_from.
  - apply NoDup_unique_from.
  - reflexivity.
Qed.

(** X1: The first view: with the widgets untouched, the filter keeps every
    row; a frame without rows gives the sidebar nothing to start from. *)
Theorem sidebar_inicial_todo (df_full : DataFrame) :
  match sidebar_inicial df_full with
  | Some (rango, regiones, categorias, modo_comp) =>
      df_full <> []
      /\ filtrado_principal df_full rango regiones categorias = Ok df_full
      /\ NoDup regiones /\ NoDup categorias
      /\ modo_comp = "Periodo anterior"%string
  | None => df_full = []
  end.
Proof. apply sidebar_inicial_todo_lema. Qed.

(** ** The current window and the prior window *)

Lemma incluido_b_ventana rango regiones categorias x :
  valid (fst rango) -> valid (snd rango) ->
  incluido_b rango regiones categorias x
  = en_ventana (to_datetime (fst rango), to_datetime (snd rango)) x
    && bool_decide (Región (snd x) ∈ regiones)
    && bool_decide (Categoría (snd x) ∈ categorias).
Proof.
  intros Hs He. unfold incluido_b, en_ventana. cbn [fst snd].
  rewrite (date_leb_start _ _ Hs), (date_leb_end _ _ He). reflexivity.
Qed.

Lemma filter_ext_elem {A} (p q : A -> bool) (l : list A) :
  (forall x, x ∈ l -> p x = q x) -> List.filter p l = List.filter q l.
Proof.
  intros H. induction l as [| x l IH]; cbn; [reflexivity |].
  rewrite (H x) by left. rewrite IH; [reflexivity |].
  intros y Hy. apply H. right. exact Hy.
Qed.

(** X2: The comparison subset is what the main filter returns for the dates of
    the prior window when every region and category of the dataset is
    selected. *)
Theorem periodo_anterior_como_filtro (df_full : DataFrame)
    (rango : date * date) (modo : string) :
  let w := ventana_anterior rango modo in
  periodo_anterior df_full rango modo
  = filtrado_principal df_full (dt_date (fst w), dt_date (snd w))
      (unique (column Región df_full)) (unique (column Categoría df_full)).
Proof.
  intros w. rewrite periodo_anterior_filter, filtrado_principal_filter.
  f_equal. fold w. apply filter_ext_elem. intros x Hx.
  unfold incluido_b, en_ventana. cbn [fst snd]. rewrite !date_leb_dt_date.
  assert (H1 : bool_decide (Región (snd x) ∈ unique (column Región df_full)) = true).
  { apply bool_decide_eq_true, elem_of_unique. unfold column.
    apply list_elem_of_In, in_map_iff. exists x. split; [reflexivity |].
    apply list_elem_of_In, Hx. }
  assert (H2 : bool_decide (Categoría (snd x) ∈ unique (column Categoría df_full)) = true).
  { apply bool_decide_eq_true, elem_of_unique. unfold column.
    apply list_elem_of_In, in_map_iff. exists x. split; [reflexivity |].
    apply list_elem_of_In, Hx. }
  rewrite H1, H2, !andb_true_r. reflexivity.
Qed.

(** X3: In mode "dias" no row is counted on both sides of the comparison. *)
Theorem dias_sin_solape (df_full : DataFrame) (rango : date * date)
    (regiones categorias : list string) (df prev : DataFrame) :
  valid (fst rango) ->
  filtrado_principal df_full rango regiones categorias = Ok df ->
  periodo_anterior df_full rango "dias" = Ok prev ->
  forall x, x ∈ prev -> x ∉ df.
Proof.
  intros Hs Hdf Hprev x Hx Hx'.
  rewrite filtrado_principal_filter in Hdf. injection Hdf as <-.
  rewrite periodo_anterior_filter in Hprev. injection Hprev as <-.
  apply elem_of_filter in Hx as [_ Hx]. apply elem_of_filter in Hx' as [_ Hx'].
  apply en_ventana_true in Hx. unfold incluido_b in Hx'.
  rewrite !andb_true_iff in Hx'. destruct Hx' as [[[H1 _] _] _].
  rewrite (date_leb_start _ _ Hs) in H1. apply Z.leb_le in H1.
  unfold ventana_anterior in Hx.
  cbn [String.eqb Ascii.eqb Bool.eqb fst snd] in Hx.
  unfold sub_days in Hx. lia.
Qed.

(** X4: The windows of mode "dias" tile the calendar: resolving the prior
    window of the prior window gives the window of the same length that ends
    the day before it. *)
Theorem dias_ventanas_contiguas (rango : date * date) :
  let w := ventana_anterior rango "dias" in
  let w' := ventana_anterior (dt_date (fst w), dt_date (snd w)) "dias" in
  snd w' = sub_days (fst w) 1
  /\ days_between (snd w') (fst w') = days_between (snd w) (fst w)
  /\ days_between (snd w) (fst w)
     = days_between (to_datetime (snd rango)) (to_datetime (fst rango)).
Proof.
  intros w w'. subst w w'. unfold ventana_anterior.
  cbn [String.eqb Ascii.eqb Bool.eqb fst snd].
  rewrite !to_datetime_dt_date. unfold sub_days, days_between. lia.
Qed.

(** One calendar year back is 365 or 366 days back. *)
Lemma is_leap_consecutive y : is_leap y = true -> is_leap (y - 1) = false.
Proof.
  unfold is_leap. intros H.
  apply andb_true_iff in H as [H _]. apply Z.eqb_eq in H.
  destruct (Z.eqb_spec ((y - 1) mod 4) 0) as [E | E]; [| reflexivity].
  exfalso. Z.div_mod_to_equations. lia.
Qed.

Lemma sub_years_shift d :
  valid d -> 365 <= to_datetime d - sub_years (to_datetime d) 1 <= 366.
Proof.
  intros Hv. rewrite (sub_years_to_datetime d Hv).
  destruct Hv as [Hm Hd]. destruct d as [y m dd]. cbn [year month day] in *.
  unfold to_datetime, toordinal, un_anio_antes. cbn [year month day].
  unfold ymd2ord.
  pose proof (days_before_year_succ (y - 1)) as Hy.
  replace (y - 1 + 1) with y in Hy by lia.
  unfold days_before_month, days_in_month in *.
  pose proof (is_leap_consecutive y) as Hc.
  apply month_cases in Hm.
  destruct (is_leap y), (is_leap (y - 1));
    try (specialize (Hc eq_refl); discriminate);
    cbn [leap_extra] in Hy;
    repeat (destruct Hm as [Hm | Hm]); subst m; eval_tables; lia.
Qed.

Lemma anio_desplazamiento_lema (rango : date * date) :
  valid (fst rango) -> valid (snd rango) ->
  let ini := to_datetime (fst rango) in
  let fin := to_datetime (snd rango) in
  let w := ventana_anterior rango "anio" in
  365 <= days_between ini (fst w) <= 366
  /\ 365 <= days_between fin (snd w) <= 366
  /\ -1 <= days_between (snd w) (fst w) - days_between fin ini <= 1.
Proof.
  intros Hs He ini fin w. subst w. unfold ventana_anterior.
  cbn [String.eqb Ascii.eqb Bool.eqb fst snd]. fold ini fin.
  pose proof (sub_years_shift _ Hs) as H1.
  pose proof (sub_years_shift _ He) as H2.
  fold ini in H1. fold fin in H2. unfold days_between. lia.
Qed.

(** X5: In mode "anio" each bound moves 365 or 366 days back, so the prior
    window is at most one day longer or shorter than the current one. *)
Theorem anio_desplazamiento (rango : date * date) :
  valid (fst rango) -> valid (snd rango) ->
  let ini := to_datetime (fst rango) in
  let fin := to_datetime (snd rango) in
  let w := ventana_anterior rango "anio" in
  365 <= days_between ini (fst w) <= 366
  /\ 365 <= days_between fin (snd w) <= 366
  /\ -1 <= days_between (snd w) (fst w) - days_between fin ini <= 1.
Proof. apply anio_desplazamiento_lema. Qed.

(** X6: In mode "anio", with the days of the range counted from the first to
    the last day, both included: a selected row is also in the comparison
    subset exactly when its date is not after the end of the prior window;
    the two sides share no row when the range has at most 365 days; when it
    has 367 days or more they overlap, every selected row dated on the first
    day of the range being counted on both sides; at exactly 366 days they
    share no row when the end of the range is 366 days after the same date
    of the year before, and overlap on the first day when it is 365 days
    after it. *)
Theorem anio_solape (df_full : DataFrame) (rango : date * date)
    (regiones categorias : list string) (df prev : DataFrame) :
  valid (fst rango) -> valid (snd rango) ->
  filtrado_principal df_full rango regiones categorias = Ok df ->
  periodo_anterior df_full rango "anio" = Ok prev ->
  let ini := to_datetime (fst rango) in
  let fin := to_datetime (snd rango) in
  let dias := days_between fin ini + 1 in
  let w := ventana_anterior rango "anio" in
  (forall x, x ∈ df -> (x ∈ prev <-> Fecha (snd x) <= snd w))
  /\ (dias <= 365 -> forall x, x ∈ prev -> x ∉ df)
  /\ (367 <= dias ->
      forall x, x ∈ df -> Fecha (snd x) = ini -> x ∈ prev)
  /\ (dias = 366 -> days_between fin (snd w) = 366 ->
      forall x, x ∈ prev -> x ∉ df)
  /\ (dias = 366 -> days_between fin (snd w) = 365 ->
      forall x, x ∈ df -> Fecha (snd x) = ini -> x ∈ prev).
Proof.
  intros Hs He Hdf Hprev ini fin dias w.
  rewrite filtrado_principal_filter in Hdf. injection Hdf as <-.
  rewrite periodo_anterior_filter in Hprev. injection Hprev as <-.
  pose proof (anio_desplazamiento_lema rango Hs He) as (A1 & A2 & _).
  cbn zeta in A1, A2. fold ini fin w in A1, A2. fold w.
  subst dias. unfold days_between in *.
  assert (Hdf : forall x,
             x ∈ List.filter (incluido_b rango regiones categorias) df_full ->
             x ∈ df_full /\ ini <= Fecha (snd x) <= fin).
  { intros x Hx. apply elem_of_filter in Hx as [Hin Hx]. split; [exact Hin |].
    rewrite (incluido_b_ventana _ _ _ _ Hs He) in Hx.
    rewrite !andb_true_iff in Hx. destruct Hx as [[Hx _] _].
    apply en_ventana_true in Hx. exact Hx. }
  assert (Hprev : forall x,
             x ∈ List.filter (en_ventana w) df_full <->
             x ∈ df_full /\ fst w <= Fecha (snd x) <= snd w).
  { intros x. rewrite elem_of_filter, en_ventana_true. reflexivity. }
  split_and!.
  - intros x Hx. apply Hdf in Hx as [Hin Hx]. rewrite Hprev.
    split; [intros [_ H]; lia | intros H; split; [exact Hin | lia]].
  - intros Hlen x Hx Hx'. apply Hprev in Hx as [_ Hx].
    apply Hdf in Hx' as [_ Hx']. lia.
  - intros Hlen x Hx Hdate. apply Hdf in Hx as [Hin Hx]. apply Hprev.
    split; [exact Hin | lia].
  - intros Hlen Hfin x Hx Hx'. apply Hprev in Hx as [_ Hx].
    apply Hdf in Hx' as [_ Hx']. lia.
  - intros Hlen Hfin x Hx Hdate. apply Hdf in Hx as [Hin Hx]. apply Hprev.
    split; [exact Hin | lia].
Qed.

(** ** Narrowing the selection *)

Lemma filter_filter_implied {A} (p q : A -> bool) (l : list A) :
  (forall x, p x = true -> q x = true) ->
  List.filter p (List.filter q l) = List.filter p l.
Proof.
  intros H. induction l as [| x l IH]; cbn; [reflexivity |].
  destruct (q x) eqn:Eq; cbn.
  - rewrite IH. reflexivity.
  - destruct (p x) eqn:Ep; [| exact IH].
    rewrite (H x Ep) in Eq. discriminate.
Qed.

(** X7: Drilling down: a narrower selection (a range inside the range, fewer
    regions, fewer categories) applied to an already filtered frame gives
    what it gives on the full dataset, and the rows it keeps are among the
    rows of the wider selection, in the same order. *)
Theorem filtrado_mas_estrecho (df_full : DataFrame)
    (rango rango' : date * date)
    (regiones regiones' categorias categorias' : list string)
    (df' : DataFrame) :
  date_leb (fst rango') (fst rango) = true ->
  date_leb (snd rango) (snd rango') = true ->
  regiones ⊆ regiones' -> categorias ⊆ categorias' ->
  filtrado_principal df_full rango' regiones' categorias' = Ok df' ->
  filtrado_principal df' rango regiones categorias
  = filtrado_principal df_full rango regiones categorias
  /\ exists df,
       filtrado_principal df_full rango regiones categorias = Ok df
       /\ df `sublist_of` df'.
Proof.
  intros Hs He Hr Hc Hdf'.
  rewrite filtrado_principal_filter in Hdf'. injection Hdf' as <-.
  rewrite !filtrado_principal_filter.
  assert (Himp : forall x,
             incluido_b rango regiones categorias x = true ->
             incluido_b rango' regiones' categorias' x = true).
  { intros x. unfold incluido_b.
    rewrite !andb_true_iff, !bool_decide_eq_true.
    intros [[[H1 H2] H3] H4]. split_and!.
    - exact (date_leb_trans _ _ _ Hs H1).
    - exact (date_leb_trans _ _ _ H2 He).
    - apply Hr, H3.
    - apply Hc, H4. }
  rewrite (filter_filter_implied _ _ _ Himp). split; [reflexivity |].
  eexists. split; [reflexivity |].
  rewrite <- (filter_filter_implied _ _ df_full Himp). apply filter_sublist.
Qed.

(** ** Comparison against an empty prior window *)

Lemma delta_pct_nan_prior x : delta_pct x (VFloat nan) = Ok (VFloat nan).
Proof. apply delta_pct_sin_referencia. right. right. right. reflexivity. Qed.

Lemma delta_pct_zero_prior x : delta_pct x (VFloat zero) = Ok (VFloat nan).
Proof.
  apply delta_pct_sin_referencia. right. right. left. exists false. reflexivity.
Qed.

Lemma delta_pct_int_zero_prior x : delta_pct x (VInt 0) = Ok (VFloat nan).
Proof. apply delta_pct_sin_referencia. right. left. reflexivity. Qed.

Lemma kpis_sin_periodo_anterior_lema (df_full df : DataFrame)
    (rango : date * date) (modo_comp : string) :
  modo_comp <> "Sin comparación"%string ->
  (forall x, x ∈ df_full ->
     en_ventana
       (ventana_anterior rango
          (if String.eqb modo_comp "Periodo anterior" then "dias"%string
           else "anio"%string)) x = false) ->
  exists k,
    kpis df_full df rango modo_comp = Ok k
    /\ prev_df k = Some []
    /\ prev_tot k = VFloat zero
    /\ prev_avg k = VFloat nan
    /\ prev_cnt k = VInt 0
    /\ pct_tot k = VFloat nan
    /\ pct_avg k = VFloat nan
    /\ pct_cnt k = VFloat nan.
Proof.
  intros Hmodo Hout. unfold kpis, agregados at 1.
  destruct (comparacion_cases df_full rango modo_comp)
    as [[E _] | [_ (prev & Hp & ->)]]; [contradiction |].
  rewrite periodo_anterior_filter in Hp. injection Hp as <-.
  rewrite (filter_ext_elem _ (fun _ => false) df_full Hout).
  rewrite (filter_none (fun _ => false)) by reflexivity.
  cbn [bind agregados column map Series_sum ndarray_sum Series_mean
       Series_count List.filter List.length shape0 Z.of_nat].
  rewrite delta_pct_zero_prior, delta_pct_nan_prior, delta_pct_int_zero_prior.
  cbn [bind]. eexists. split_and!; reflexivity.
Qed.

(** X8: When no row of the dataset falls in the prior window, the prior total
    is 0.0, the prior mean NaN and the prior count 0, and the three deltas
    are NaN, whatever the current values are. *)
Theorem kpis_sin_periodo_anterior (df_full df : DataFrame)
    (rango : date * date) (modo_comp : string) :
  modo_comp <> "Sin comparación"%string ->
  (forall x, x ∈ df_full ->
     en_ventana
       (ventana_anterior rango
          (if String.eqb modo_comp "Periodo anterior" then "dias"%string
           else "anio"%string)) x = false) ->
  exists k,
    kpis df_full df rango modo_comp = Ok k
    /\ prev_df k = Some []
    /\ prev_tot k = VFloat zero
    /\ prev_avg k = VFloat nan
    /\ prev_cnt k = VInt 0
    /\ pct_tot k = VFloat nan
    /\ pct_avg k = VFloat nan
    /\ pct_cnt k = VFloat nan.
Proof. apply kpis_sin_periodo_anterior_lema. Qed.

(** X9: The first view compares against nothing: with the widgets untouched the
    prior window ends the day before the first date of the dataset, so the
    dashboard shows the whole dataset and all three deltas are NaN. *)
Theorem primera_vista (df_full : DataFrame) (rango : date * date)
    (regiones categorias : list string) (modo_comp : string) :
  sidebar_inicial df_full = Some (rango, regiones, categorias, modo_comp) ->
  exists k,
    dashboard df_full rango regiones categorias modo_comp = Ok (df_full, k)
    /\ prev_df k = Some []
    /\ pct_tot k = VFloat nan
    /\ pct_avg k = VFloat nan
    /\ pct_cnt k = VFloat nan.
Proof.
  intros Hs. pose proof (sidebar_inicial_todo_lema df_full) as H.
  rewrite Hs in H. destruct H as (_ & Hf & _ & _ & ->).
  unfold sidebar_inicial in Hs.
  destruct (Series_min (column Fecha df_full)) as [dmin |] eqn:Emin;
    [| discriminate].
  destruct (Series_max (column Fecha df_full)) as [dmax |] eqn:Emax;
    [| discriminate].
  injection Hs as <- _ _.
  destruct (kpis_sin_periodo_anterior_lema df_full df_full
              (dt_date dmin, dt_date dmax) "Periodo anterior")
    as (k & Hk & Hp & _ & _ & _ & H1 & H2 & H3).
  - discriminate.
  - intros x Hx. cbn [String.eqb Ascii.eqb Bool.eqb].
    unfold ventana_anterior, en_ventana.
    cbn [String.eqb Ascii.eqb Bool.eqb fst snd].
    rewrite !to_datetime_dt_date. unfold sub_days, days_between.
    pose proof (Forall_column _ _ _ (Series_min_le _ _ Emin)) as Hmin.
    rewrite Forall_forall in Hmin. specialize (Hmin x Hx). cbn beta in Hmin.
    apply andb_false_iff. right. apply Z.leb_gt. lia.
  - exists k. unfold dashboard. rewrite Hf. cbn [bind]. rewrite Hk.
    cbn [bind]. split_and!; auto.
Qed.

(** ** The sign of the delta *)

Lemma con_signo_false f : con_signo false f <-> leb zero f = true.
Proof.
  unfold leb, SFleb, zero.
  destruct f as [s | s | | s m e]; cbn; try destruct s; cbn;
    intuition congruence.
Qed.

Lemma con_signo_true f : con_signo true f <-> leb f zero = true.
Proof.
  unfold leb, SFleb, zero.
  destruct f as [s | s | | s m e]; cbn; try destruct s; cbn;
    intuition congruence.
Qed.

Lemma binary_round_aux_con_signo s m e l :
  0 <= m -> con_signo s (binary_round_aux prec emax s m e l).
Proof.
  intros H. pose proof (binary_round_aux_sign prec emax s m e l H) as K.
  destruct (binary_round_aux prec emax s m e l); cbn; auto.
Qed.

Lemma binary_normalize_con_signo D e :
  con_signo (D <? 0) (binary_normalize prec emax D e false).
Proof.
  destruct D as [| p | p]; cbn [binary_normalize]; [exact I | |].
  - pose proof (binary_round_sign prec emax false p e) as K.
    change (Z.pos p <? 0) with false.
    destruct (binary_round prec emax false p e); cbn; auto.
  - pose proof (binary_round_sign prec emax true p e) as K.
    change (Z.neg p <? 0) with true.
    destruct (binary_round prec emax true p e); cbn; auto.
Qed.

Lemma con_signo_zero_diff D e s :
  (s = false -> 0 <= D) -> (s = true -> D <= 0) ->
  con_signo s (binary_normalize prec emax D e false).
Proof.
  intros H1 H2. pose proof (binary_normalize_con_signo D e) as K.
  destruct (Z.ltb_spec D 0) as [L | L].
  - destruct s; [exact K | specialize (H1 eq_refl); lia].
  - destruct s.
    + specialize (H2 eq_refl). assert (D = 0) by lia. subst D. exact I.
    + exact K.
Qed.

Lemma bounded_mantissa m e :
  bounded prec emax m e = true ->
  Z.pos m < 2 ^ 53 /\ - 1074 <= e /\ (- 1074 < e -> 2 ^ 52 <= Z.pos m).
Proof.
  unfold bounded, canonical_mantissa, fexp, SpecFloat.emin, prec, emax.
  intros H. apply andb_true_iff in H as [H _]. apply Z.eqb_eq in H.
  rewrite digits2_pos_size in H.
  pose proof (Pos.size_gt m) as G. pose proof (Pos.size_le m) as L.
  apply Pos2Z.pos_lt_pos in G. apply Pos2Z.pos_le_pos in L.
  rewrite Pos2Z.inj_pow in G, L.
  set (n := Z.pos (Pos.size m)) in *.
  assert (Hn : 0 < n) by (subst n; lia).
  assert (Hn53 : n <= 53) by lia.
  split_and!.
  - apply Z.lt_le_trans with (2 ^ n); [exact G |].
    apply Z.pow_le_mono_r; lia.
  - lia.
  - intros He. assert (n = 53) by lia.
    rewrite H0 in L. lia.
Qed.

Lemma pos_compare_cont_le m1 m2 :
  match Pos.compare_cont Eq m1 m2 with
  | Lt => (m1 < m2)%positive
  | Eq => m1 = m2
  | Gt => (m2 < m1)%positive
  end.
Proof.
  change (Pos.compare_cont Eq m1 m2) with (Pos.compare m1 m2).
  destruct (Pos.compare_spec m1 m2); assumption.
Qed.

(** Aligned mantissas of two canonical positive floats compare as the
    floats do. *)
Lemma aligned_le m1 e1 m2 e2 :
  bounded prec emax m1 e1 = true -> bounded prec emax m2 e2 = true ->
  leb (S754_finite false m1 e1) (S754_finite false m2 e2) = true ->
  Z.pos (fst (shl_align m1 e1 (Z.min e2 e1)))
  <= Z.pos (fst (shl_align m2 e2 (Z.min e2 e1))).
Proof.
  intros B1 B2 H.
  apply bounded_mantissa in B1 as (U1 & L1 & N1).
  apply bounded_mantissa in B2 as (U2 & L2 & N2).
  rewrite !shl_align_value by lia.
  unfold leb, SFleb in H. cbn [SFcompare] in H.
  destruct (Z.compare_spec e1 e2) as [E | E | E]; try discriminate.
  - subst e2. rewrite Z.min_id, Z.sub_diag. cbn [Z.pow].
    pose proof (pos_compare_cont_le m1 m2) as C.
    destruct (Pos.compare_cont Eq m1 m2); try discriminate; lia.
  - rewrite Z.min_r by lia. rewrite Z.sub_diag. cbn [Z.pow].
    assert (P : 2 <= 2 ^ (e2 - e1)).
    { change 2 with (2 ^ 1) at 1. apply Z.pow_le_mono_r; lia. }
    specialize (N2 ltac:(lia)). nia.
Qed.

Lemma sub_con_signo_ge a p :
  valid_binary prec emax a = true -> positivo_finito p ->
  leb p a = true -> con_signo false (sub a p).
Proof.
  intros Va [Vp (m2 & e2 & ->)] H. unfold sub.
  destruct a as [s | s | | s m1 e1].
  - destruct s; discriminate.
  - destruct s; [discriminate | reflexivity].
  - discriminate.
  - destruct s; [discriminate |].
    cbn [SFsub cond_Zopp].
    apply con_signo_zero_diff; [intros _ | discriminate].
    pose proof (aligned_le m2 e2 m1 e1 Vp Va H). lia.
Qed.

Lemma sub_con_signo_le a p :
  valid_binary prec emax a = true -> positivo_finito p ->
  leb a p = true -> con_signo true (sub a p).
Proof.
  intros Va [Vp (m2 & e2 & ->)] H. unfold sub.
  destruct a as [s | s | | s m1 e1]; try discriminate.
  - reflexivity.
  - destruct s; [reflexivity | discriminate].
  - cbn [SFsub]. apply con_signo_zero_diff; [discriminate | intros _].
    destruct s; cbn [cond_Zopp]; [lia |].
    pose proof (aligned_le m1 e1 m2 e2 Va Vp H) as K.
    rewrite Z.min_comm in K. lia.
Qed.

Lemma div_eucl_nonneg a b :
  0 <= a -> 0 <= fst (Z.div_eucl a (Z.pos b)).
Proof.
  intros H. pose proof (Z_div_mod a (Z.pos b) ltac:(lia)) as K.
  destruct (Z.div_eucl a (Z.pos b)) as [q r]. cbn [fst]. nia.
Qed.

Lemma div_con_signo s x m e :
  con_signo s x -> con_signo s (div x (S754_finite false m e)).
Proof.
  unfold div. destruct x as [sx | sx | | sx mx ex]; cbn [con_signo SFdiv];
    intros H; try contradiction.
  - exact I.
  - rewrite xorb_false_r. exact H.
  - subst sx. rewrite xorb_false_r.
    unfold SFdiv_core_binary.
    match goal with
    | |- context [Z.div_eucl ?a (Z.pos m)] =>
        pose proof (div_eucl_nonneg a m) as K;
        destruct (Z.div_eucl a (Z.pos m)) as [q r]
    end.
    apply binary_round_aux_con_signo. cbn [fst] in K. apply K.
    match goal with
    | |- 0 <= match ?t with _ => _ end => destruct t
    end; try lia.
    apply Z.shiftl_nonneg. lia.
Qed.

Lemma mul_100_con_signo s x : con_signo s x -> con_signo s (mul x (of_Z 100)).
Proof.
  change (of_Z 100) with (S754_finite false 7036874417766400 (-46)).
  unfold mul. destruct x as [sx | sx | | sx mx ex]; cbn [con_signo SFmul];
    intros H; try contradiction.
  - exact I.
  - rewrite xorb_false_r. exact H.
  - subst sx. rewrite xorb_false_r. apply binary_round_aux_con_signo. lia.
Qed.

Lemma positivo_finito_no_guard p :
  positivo_finito p -> ~ sin_referencia (VFloat p).
Proof.
  intros [_ (m & e & ->)] [H | [H | [[s H] | H]]]; discriminate.
Qed.

Lemma exact_Z_con_signo z s :
  (s = false -> 0 <= z) -> (s = true -> z <= 0) -> con_signo s (exact_Z z).
Proof.
  intros H1 H2. destruct z as [| q | q]; cbn; [exact I | |];
    destruct s; auto; [specialize (H2 eq_refl) | specialize (H1 eq_refl)]; lia.
Qed.

Lemma delta_pct_signo_float_lema (a p : float) :
  valid_binary prec emax a = true -> positivo_finito p ->
  exists f,
    delta_pct (VFloat a) (VFloat p) = Ok (VFloat f)
    /\ (leb p a = true -> leb zero f = true)
    /\ (leb a p = true -> leb f zero = true).
Proof.
  intros Va Hp.
  exists (porcentaje (VFloat a) (VFloat p)). split.
  - apply delta_pct_porcentaje; [discriminate | exact I | exact I |].
    apply positivo_finito_no_guard, Hp.
  - cbn [porcentaje as_float]. pose proof Hp as [_ (m & e & E)].
    split; intros H.
    + apply con_signo_false, mul_100_con_signo. rewrite E at 2.
      apply div_con_signo, sub_con_signo_ge; assumption.
    + apply con_signo_true, mul_100_con_signo. rewrite E at 2.
      apply div_con_signo, sub_con_signo_le; assumption.
Qed.

(** X10: The delta points the way of the change: against a positive prior value
    it is [>= 0] when the current value is at least the prior one and
    [<= 0] when it is at most the prior one. *)
Theorem delta_pct_signo_float (a p : float) :
  valid_binary prec emax a = true -> positivo_finito p ->
  exists f,
    delta_pct (VFloat a) (VFloat p) = Ok (VFloat f)
    /\ (leb p a = true -> leb zero f = true)
    /\ (leb a p = true -> leb f zero = true).
Proof. apply delta_pct_signo_float_lema. Qed.

(** X11: The same for integers, such as the two row counts: the difference is
    exact and the quotient is rounded once, so the sign is that of the
    change. *)
Theorem delta_pct_signo_int (a p : Z) :
  - 2 ^ 63 <= a < 2 ^ 63 -> 0 < p < 2 ^ 63 ->
  exists f,
    delta_pct (VInt a) (VInt p) = Ok (VFloat f)
    /\ (p <= a -> leb zero f = true)
    /\ (a <= p -> leb f zero = true).
Proof.
  intros Ha Hp.
  exists (porcentaje (VInt a) (VInt p)). split.
  - apply delta_pct_porcentaje; [discriminate | exact Ha | cbn; lia |].
    intros [H | [H | [[s H] | H]]]; try discriminate.
    injection H as ->. lia.
  - cbn [porcentaje]. destruct p as [| q | q]; try lia. cbn [exact_Z].
    split; intros H.
    + apply con_signo_false, mul_100_con_signo, div_con_signo.
      apply exact_Z_con_signo; [lia | discriminate].
    + apply con_signo_true, mul_100_con_signo, div_con_signo.
      apply exact_Z_con_signo; [discriminate | lia].
Qed.

(** ** The badge and the KPI cards *)

Lemma badge_float f :
  badge (VFloat f)
  = Ok (if is_nan f then "<span style='color:#9ca3af'>n/d</span>"
        else
          "<span style='color:"
          ++ (if leb zero f then "#16a34a" else "#dc2626")
          ++ ";font-size:0.85rem;'>"
          ++ (if leb zero f then "▲" else "▼")
          ++ " " ++ format_f "," "." f 1 ++ "%</span>")%string.
Proof.
  unfold badge. cbn [pd_isna]. destruct (is_nan f); reflexivity.
Qed.

Lemma leb_zero_not_nan f : leb zero f = true -> is_nan f = false.
Proof. destruct f; try reflexivity. discriminate. Qed.

(** X12: A value that did not change gives a zero delta, shown as a rise of
    0.0 percent (of -0.0 percent when the value is negative). *)
Theorem delta_pct_sin_cambio (s : bool) (m : positive) (e : Z) :
  delta_pct (VFloat (S754_finite s m e)) (VFloat (S754_finite s m e))
  = Ok (VFloat (S754_zero s))
  /\ badge (VFloat (S754_zero s))
     = Ok ("<span style='color:#16a34a;font-size:0.85rem;'>▲ "
           ++ (if s then "-0.0" else "0.0") ++ "%</span>")%string.
Proof.
  split.
  - rewrite delta_pct_porcentaje; [| discriminate | exact I | exact I |].
    + cbn [porcentaje as_float]. unfold sub. cbn [SFsub].
      rewrite Z.sub_diag. cbn [binary_normalize].
      change (of_Z 100) with (S754_finite false 7036874417766400 (-46)).
      destruct s; reflexivity.
    + intros [H | [H | [[s' H] | H]]]; discriminate.
  - destruct s; reflexivity.
Qed.

(** X13: The guard comes before the arithmetic: a current value of None is
    answered with NaN when the prior value is missing or zero, and with a
    TypeError otherwise. *)
Theorem delta_pct_None (pasado : value) :
  (sin_referencia pasado -> delta_pct VNone pasado = Ok (VFloat nan))
  /\ (~ sin_referencia pasado -> delta_pct VNone pasado = Raise TypeError).
Proof.
  split; [apply delta_pct_sin_referencia |].
  intros H. unfold delta_pct.
  destruct (in_0_None pasado || pd_isna pasado) eqn:G.
  - exfalso. apply H, guard_sin_referencia, G.
  - destruct pasado; reflexivity.
Qed.

(** X14: A rise against a positive prior value is shown in green with the
    up-arrow. *)
Theorem badge_subida (a p : float) :
  valid_binary prec emax a = true -> positivo_finito p -> leb p a = true ->
  exists f,
    delta_pct (VFloat a) (VFloat p) = Ok (VFloat f)
    /\ badge (VFloat f)
       = Ok ("<span style='color:#16a34a;font-size:0.85rem;'>▲ "
             ++ format_f "," "." f 1 ++ "%</span>")%string.
Proof.
  intros Va Hp H.
  destruct (delta_pct_signo_float_lema a p Va Hp) as (f & Hf & Hup & _).
  exists f. split; [exact Hf |].
  rewrite badge_float, (leb_zero_not_nan f (Hup H)), (Hup H). reflexivity.
Qed.

Lemma fmt_moneda_float_ok f dec : exists s, fmt_moneda (VFloat f) dec = Ok s.
Proof.
  destruct (is_nan f) eqn:E.
  - exists "—"%string. unfold fmt_moneda. cbn [pd_isna]. rewrite E. reflexivity.
  - eexists. apply fmt_moneda_float, E.
Qed.

Lemma tarjeta_float_ok a etiqueta p :
  exists c, tarjeta (VFloat a) etiqueta (VFloat p) = Ok c.
Proof.
  unfold tarjeta. destruct (delta_pct_floats a p) as [f ->]. cbn [bind].
  destruct (fmt_moneda_float_ok a
              (if negb (String.eqb etiqueta "Promedio por Orden") then 0%nat
               else 2%nat)) as [v ->].
  cbn [bind]. rewrite badge_float. cbn [bind]. eauto.
Qed.

Lemma tarjeta_count_ok c etiqueta prev :
  0 <= c < 2 ^ 63 ->
  (prev = VFloat nan \/ exists p, 0 <= p /\ prev = VInt p) ->
  exists s, tarjeta (VInt c) etiqueta prev = Ok s.
Proof.
  intros Hc Hprev. unfold tarjeta.
  assert (Hd : exists f, delta_pct (VInt c) prev = Ok (VFloat f)).
  { destruct Hprev as [-> | (p & Hp & ->)].
    - exists nan. apply delta_pct_nan_prior.
    - apply delta_pct_counts; [| exact Hp].
      pose proof threshold_above_machine. lia. }
  destruct Hd as [f ->]. cbn [bind].
  rewrite fmt_moneda_int by lia. cbn [bind].
  rewrite badge_float. cbn [bind]. eauto.
Qed.

(** X15: Section 8 renders its three cards for every dataset, selection and
    comparison mode, as long as the filtered frame has fewer than 2^63
    rows. *)
Theorem tarjetas_ok (df_full df : DataFrame) (rango : date * date)
    (modo_comp : string) :
  Z.of_nat (List.length df) < 2 ^ 63 ->
  exists c1 c2 c3, tarjetas df_full df rango modo_comp = Ok [c1; c2; c3].
Proof.
  intros Hlen. unfold tarjetas, agregados at 1, shape0.
  destruct (comparacion_cases df_full rango modo_comp)
    as [[_ ->] | [_ (prev & _ & ->)]]; cbn [bind].
  - destruct (tarjeta_float_ok (Series_sum (column Ventas df))
                "Ventas Totales" nan) as [c1 ->].
    destruct (tarjeta_float_ok (Series_mean (column Ventas df))
                "Promedio por Orden" nan) as [c2 ->].
    destruct (tarjeta_count_ok (Z.of_nat (List.length df))
                "Número de Órdenes" (VFloat nan)) as [c3 ->];
      [lia | left; reflexivity |].
    cbn [bind]. eauto.
  - unfold agregados, shape0.
    destruct (tarjeta_float_ok (Series_sum (column Ventas df))
                "Ventas Totales" (Series_sum (column Ventas prev))) as [c1 ->].
    destruct (tarjeta_float_ok (Series_mean (column Ventas df))
                "Promedio por Orden" (Series_mean (column Ventas prev)))
      as [c2 ->].
    destruct (tarjeta_count_ok (Z.of_nat (List.length df))
                "Número de Órdenes" (VInt (Z.of_nat (List.length prev))))
      as [c3 ->]; [lia | right; eexists; split; [| reflexivity]; lia |].
    cbn [bind]. eauto.
Qed.

(** ** The detail table: dates as text *)

Lemma N_of_ascii_digit n :
  0 <= n < 10 -> Z.of_N (N_of_ascii (digit n)) = 48 + n.
Proof.
  intros H. unfold digit, ascii_of_nat.
  rewrite N_ascii_embedding by lia. lia.
Qed.

Lemma ascii_compare_digit a b :
  0 <= a < 10 -> 0 <= b < 10 ->
  Ascii.compare (digit a) (digit b) = (a ?= b).
Proof.
  intros Ha Hb. unfold Ascii.compare. rewrite <- N2Z.inj_compare.
  rewrite !N_of_ascii_digit by assumption.
  apply Z.add_compare_mono_l.
Qed.

Lemma string_compare_refl s : String.compare s s = Eq.
Proof.
  induction s as [| c s IH]; cbn [String.compare]; [reflexivity |].
  unfold Ascii.compare. rewrite N.compare_refl. exact IH.
Qed.

Lemma string_compare_app a a' b b' :
  String.length a = String.length a' ->
  String.compare (a ++ b) (a' ++ b')
  = match String.compare a a' with
    | Eq => String.compare b b'
    | c => c
    end.
Proof.
  revert a'. induction a as [| c a IH]; intros [| c' a'] H;
    try discriminate; [reflexivity |].
  rewrite !append_cons. cbn [String.compare].
  destruct (Ascii.compare c c'); try reflexivity.
  apply IH. cbn in H. lia.
Qed.

Lemma string_length_app a b :
  String.length (a ++ b) = (String.length a + String.length b)%nat.
Proof.
  induction a as [| c a IH]; [reflexivity |].
  rewrite append_cons. cbn [String.length]. rewrite IH. reflexivity.
Qed.

Lemma length_digits_fixed w n : String.length (digits_fixed w n) = w.
Proof.
  revert n. induction w as [| w IH]; intros n; cbn [digits_fixed];
    [reflexivity |].
  rewrite string_length_app, IH. cbn. lia.
Qed.

Lemma compare_div_mod x y :
  0 <= x -> 0 <= y ->
  (x ?= y)
  = match x / 10 ?= y / 10 with
    | Eq => x mod 10 ?= y mod 10
    | c => c
    end.
Proof.
  intros Hx Hy.
  destruct (Z.compare_spec (x / 10) (y / 10)) as [E | E | E].
  - destruct (Z.compare_spec (x mod 10) (y mod 10)) as [F | F | F];
      [apply Z.compare_eq_iff | apply Z.compare_lt_iff | apply Z.compare_gt_iff];
      Z.div_mod_to_equations; lia.
  - apply Z.compare_lt_iff. Z.div_mod_to_equations. lia.
  - apply Z.compare_gt_iff. Z.div_mod_to_equations. lia.
Qed.

(** Texts of a fixed number of digits compare as the numbers do. *)
Lemma digits_fixed_compare w x y :
  0 <= x < 10 ^ Z.of_nat w -> 0 <= y < 10 ^ Z.of_nat w ->
  String.compare (digits_fixed w x) (digits_fixed w y) = (x ?= y).
Proof.
  revert x y. induction w as [| w IH]; intros x y Hx Hy.
  - cbn in *. assert (x = 0) by lia. assert (y = 0) by lia. subst. reflexivity.
  - cbn [digits_fixed].
    rewrite string_compare_app by (rewrite !length_digits_fixed; reflexivity).
    rewrite Nat2Z.inj_succ, Z.pow_succ_r in Hx, Hy by lia.
    rewrite IH by (Z.div_mod_to_equations; lia).
    rewrite (compare_div_mod x y) by lia.
    destruct (x / 10 ?= y / 10); try reflexivity.
    cbn [String.compare].
    rewrite ascii_compare_digit by (apply Z.mod_pos_bound; lia).
    destruct (x mod 10 ?= y mod 10); reflexivity.
Qed.

Lemma days_in_month_le y m : 1 <= m <= 12 -> days_in_month y m <= 31.
Proof.
  intros Hm. unfold days_in_month. apply month_cases in Hm.
  destruct (is_leap y);
    repeat (destruct Hm as [Hm | Hm]); subst m; eval_tables; lia.
Qed.

Lemma strftime_compare a b :
  valid a -> valid b ->
  0 <= year a < 10000 -> 0 <= year b < 10000 ->
  String.compare (strftime_Ymd a) (strftime_Ymd b)
  = match year a ?= year b with
    | Eq => match month a ?= month b with
            | Eq => day a ?= day b
            | c => c
            end
    | c => c
    end.
Proof.
  intros [Hma Hda] [Hmb Hdb] Hya Hyb. unfold strftime_Ymd.
  pose proof (days_in_month_le (year a) (month a) Hma).
  pose proof (days_in_month_le (year b) (month b) Hmb).
  rewrite string_compare_app by (rewrite !length_digits_fixed; reflexivity).
  rewrite digits_fixed_compare by (cbn; lia).
  destruct (year a ?= year b); try reflexivity.
  rewrite (string_compare_app "-" "-") by reflexivity.
  cbn [String.compare Ascii.compare N_of_ascii N_of_digits N.compare].
  change (String.compare "-" "-") with Eq. cbn match.
  rewrite string_compare_app by (rewrite !length_digits_fixed; reflexivity).
  rewrite digits_fixed_compare by (cbn; lia).
  destruct (month a ?= month b); try reflexivity.
  rewrite (string_compare_app "-" "-") by reflexivity.
  change (String.compare "-" "-") with Eq. cbn match.
  apply digits_fixed_compare; cbn; lia.
Qed.

Lemma date_compare_toordinal a b :
  valid a -> valid b ->
  match year a ?= year b with
  | Eq => match month a ?= month b with
          | Eq => day a ?= day b
          | c => c
          end
  | c => c
  end = (toordinal a ?= toordinal b).
Proof.
  intros Va Vb. symmetry.
  destruct (Z.compare_spec (year a) (year b)) as [Ey | Ey | Ey];
    [destruct (Z.compare_spec (month a) (month b)) as [Em | Em | Em];
      [destruct (Z.compare_spec (day a) (day b)) as [Ed | Ed | Ed] | |] | |].
  - apply Z.compare_eq_iff. unfold toordinal. rewrite Ey, Em, Ed. reflexivity.
  - apply Z.compare_lt_iff, toordinal_lt; auto. unfold date_lt. lia.
  - apply Z.compare_gt_iff, toordinal_lt; auto. unfold date_lt. lia.
  - apply Z.compare_lt_iff, toordinal_lt; auto. unfold date_lt. lia.
  - apply Z.compare_gt_iff, toordinal_lt; auto. unfold date_lt. lia.
  - apply Z.compare_lt_iff, toordinal_lt; auto. unfold date_lt. lia.
  - apply Z.compare_gt_iff, toordinal_lt; auto. unfold date_lt. lia.
Qed.

Lemma strftime_compare_timestamps t1 t2 :
  0 <= year (dt_date t1) < 10000 -> 0 <= year (dt_date t2) < 10000 ->
  String.compare (strftime_Ymd (dt_date t1)) (strftime_Ymd (dt_date t2))
  = (t1 ?= t2).
Proof.
  intros H1 H2.
  destruct (toordinal_fromordinal t1) as [V1 E1].
  destruct (toordinal_fromordinal t2) as [V2 E2].
  unfold dt_date in *.
  rewrite strftime_compare, date_compare_toordinal, E1, E2 by assumption.
  reflexivity.
Qed.

Lemma tabla_detalle_map df : tabla_detalle df = Ok (map fila_tabla df).
Proof.
  induction df as [| [i r] df IH]; [reflexivity |].
  cbn [tabla_detalle]. rewrite IH. cbn [map].
  assert (Hv : fmt_moneda (VFloat (Ventas r)) 2
               = Ok (t_Ventas (snd (fila_tabla (i, r))))).
  { cbn [fila_tabla snd t_Ventas]. destruct (is_nan (Ventas r)) eqn:E.
    - unfold fmt_moneda. cbn [pd_isna]. rewrite E. reflexivity.
    - apply fmt_moneda_float, E. }
  rewrite Hv. reflexivity.
Qed.

Lemma lookup_map {A B} (f : A -> B) (l : list A) (i : nat) :
  map f l !! i = option_map f (l !! i).
Proof.
  revert i. induction l as [| x l IH]; intros [| i]; cbn; auto.
Qed.

(** X16: The detail table is built without an exception, row for row under the
    labels of [df], and its date column, though text, orders the rows as
    their timestamps do: sorting the table on it sorts it by date. *)
Theorem tabla_detalle_orden (df : DataFrame) :
  Forall (fun x => 0 <= year (dt_date (Fecha (snd x))) < 10000) df ->
  exists t,
    tabla_detalle df = Ok t
    /\ map fst t = index df
    /\ forall i j xi xj yi yj,
         df !! i = Some xi -> df !! j = Some xj ->
         t !! i = Some yi -> t !! j = Some yj ->
         String.compare (t_Fecha (snd yi)) (t_Fecha (snd yj))
         = (Fecha (snd xi) ?= Fecha (snd xj)).
Proof.
  intros Hy. exists (map fila_tabla df). split_and!.
  - apply tabla_detalle_map.
  - unfold index. rewrite map_map. reflexivity.
  - intros i j xi xj yi yj Hi Hj Ti Tj. unfold DataFrame in *.
    rewrite lookup_map, Hi in Ti. rewrite lookup_map, Hj in Tj.
    cbn in Ti, Tj. injection Ti as <-. injection Tj as <-.
    cbn [fila_tabla snd t_Fecha].
    rewrite Forall_forall in Hy.
    apply strftime_compare_timestamps; apply Hy;
      eapply list_elem_of_lookup_2; eassumption.
Qed.

(** ** Dates and timestamps; the labels of the generated frame *)

(** X17: A range bound survives the passage to a timestamp and back, every
    timestamp is the timestamp of its date, and the date masks of section 6
    decide what the timestamp comparisons of [periodo_anterior] decide. *)
Theorem fechas_ida_y_vuelta (d0 : date) (t : Timestamp) :
  valid d0 ->
  dt_date (to_datetime d0) = d0
  /\ valid (dt_date t)
  /\ to_datetime (dt_date t) = t
  /\ date_leb d0 (dt_date t) = (to_datetime d0 <=? t)
  /\ date_leb (dt_date t) d0 = (t <=? to_datetime d0).
Proof.
  intros H. split_and!.
  - apply dt_date_to_datetime, H.
  - apply toordinal_fromordinal.
  - apply to_datetime_dt_date.
  - apply date_leb_start, H.
  - apply date_leb_end, H.
Qed.

Lemma elem_of_combine_seq (rows : list Row) (k i : nat) (r : Row) :
  (i, r) ∈ combine (seq k (List.length rows)) rows
  <-> (k <= i)%nat /\ rows !! (i - k)%nat = Some r.
Proof.
  revert k. induction rows as [| x rows IH]; intros k; cbn [List.length seq combine].
  - split; [intros H; inversion H | intros [_ H]; discriminate].
  - rewrite elem_of_cons, IH. split.
    + intros [[= -> ->] | [Hk Hl]].
      * split; [lia |]. rewrite Nat.sub_diag. reflexivity.
      * split; [lia |]. replace (i - k)%nat with (S (i - S k)) by lia. exact Hl.
    + intros [Hk Hl]. destruct (decide (i = k)) as [-> | Hne].
      * left. rewrite Nat.sub_diag in Hl. cbn in Hl. congruence.
      * right. split; [lia |].
        replace (i - k)%nat with (S (i - S k)) in Hl by lia. exact Hl.
Qed.

(** X18: The labels of the filtered frame are positions in the generated data:
    label [i] is kept exactly when row [i] passes the filter, and it comes
    with that row. *)
Theorem etiquetas_filtradas (rows : list Row) (rango : date * date)
    (regiones categorias : list string) :
  exists df,
    filtrado_principal (DataFrame_of_rows rows) rango regiones categorias
    = Ok df
    /\ forall i r,
         (i, r) ∈ df
         <-> rows !! i = Some r /\ incluido rango regiones categorias r.
Proof.
  eexists. split; [apply filtrado_principal_filter |].
  intros i r. rewrite elem_of_filter, incluido_b_true.
  unfold DataFrame_of_rows. rewrite elem_of_combine_seq, Nat.sub_0_r.
  cbn [snd]. intuition lia.
Qed.

(** ** Instances *)

Lemma dias_sin_solape_witness :
  valid (fst rango_ejemplo)
  /\ forall x,
       x ∈ [(1%nat, mkRow (to_datetime (d 2025 5 25)) "Hogar" "Sur" (of_Z 250))] ->
       x ∉ [(0%nat, mkRow (to_datetime (d 2025 6 3)) "Ropa" "Norte" (of_Z 100))].
Proof.
  split; [exact valid_2025_06_01 |].
  exact (dias_sin_solape df_ejemplo rango_ejemplo ["Norte"]%string
           ["Ropa"]%string _ _ valid_2025_06_01 eq_refl eq_refl).
Defined.

Lemma anio_desplazamiento_witness :
  valid (fst rango_ejemplo) /\ valid (snd rango_ejemplo)
  /\ 365 <= days_between (to_datetime (fst rango_ejemplo))
              (fst (ventana_anterior rango_ejemplo "anio")) <= 366.
Proof.
  split; [exact valid_2025_06_01 | split; [exact valid_2025_06_10 |]].
  exact (proj1 (anio_desplazamiento rango_ejemplo
                  valid_2025_06_01 valid_2025_06_10)).
Defined.

Lemma valid_2024_06_05 : valid (d 2024 6 5).
Proof. solve_valid. Qed.

Lemma valid_2025_06_09 : valid (d 2025 6 9).
Proof. solve_valid. Qed.

(** The range 2024-06-05 .. 2025-06-09 has 370 days: the row of 2024-06-05
    is on both sides.  The range 2025-06-01 .. 2025-06-10 has ten: the two
    sides share nothing. *)
Lemma anio_solape_witness :
  (valid (d 2024 6 5) /\ valid (d 2025 6 9)
   /\ 367 <= days_between (to_datetime (d 2025 6 9))
               (to_datetime (d 2024 6 5)) + 1
   /\ (3%nat, mkRow (to_datetime (d 2024 6 5)) "Ropa" "Sur" (of_Z 75))
        ∈ [(3%nat, mkRow (to_datetime (d 2024 6 5)) "Ropa" "Sur" (of_Z 75))])
  /\ (valid (fst rango_ejemplo) /\ valid (snd rango_ejemplo)
      /\ days_between (to_datetime (snd rango_ejemplo))
           (to_datetime (fst rango_ejemplo)) + 1 <= 365
      /\ forall x,
          x ∈ [(3%nat, mkRow (to_datetime (d 2024 6 5)) "Ropa" "Sur" (of_Z 75))] ->
          x ∉ [(0%nat, mkRow (to_datetime (d 2025 6 3)) "Ropa" "Norte" (of_Z 100))]).
Proof.
  split.
  - split; [exact valid_2024_06_05 | split; [exact valid_2025_06_09 |]].
    assert (H : 367 <= days_between (to_datetime (d 2025 6 9))
                         (to_datetime (d 2024 6 5)) + 1)
      by (vm_compute; discriminate).
    split; [exact H |].
    refine (proj1 (proj2 (proj2
              (anio_solape df_ejemplo (d 2024 6 5, d 2025 6 9) ["Sur"]%string
                 ["Ropa"]%string
                 [(3%nat, mkRow (to_datetime (d 2024 6 5)) "Ropa" "Sur" (of_Z 75))]
                 [(3%nat, mkRow (to_datetime (d 2024 6 5)) "Ropa" "Sur" (of_Z 75))]
                 valid_2024_06_05 valid_2025_06_09 eq_refl eq_refl)))
              H (3%nat, mkRow (to_datetime (d 2024 6 5)) "Ropa" "Sur" (of_Z 75))
              _ eq_refl).
    apply list_elem_of_singleton. reflexivity.
  - split; [exact valid_2025_06_01 | split; [exact valid_2025_06_10 |]].
    assert (H : days_between (to_datetime (snd rango_ejemplo))
                  (to_datetime (fst rango_ejemplo)) + 1 <= 365)
      by (vm_compute; discriminate).
    split; [exact H |].
    exact (proj1 (proj2
             (anio_solape df_ejemplo rango_ejemplo ["Norte"]%string
                ["Ropa"]%string _ _ valid_2025_06_01 valid_2025_06_10
                eq_refl eq_refl)) H).
Defined.

Lemma filtrado_mas_estrecho_witness :
  date_leb (fst rango_ejemplo) (d 2025 6 2) = true
  /\ date_leb (d 2025 6 5) (snd rango_ejemplo) = true
  /\ ["Norte"]%string ⊆ ["Norte"; "Sur"]%string
  /\ ["Ropa"]%string ⊆ ["Ropa"; "Hogar"]%string
  /\ filtrado_principal
       [(0%nat, mkRow (to_datetime (d 2025 6 3)) "Ropa" "Norte" (of_Z 100));
        (2%nat, mkRow (to_datetime (d 2025 6 9)) "Hogar" "Norte" (of_Z 50))]
       (d 2025 6 2, d 2025 6 5) ["Norte"]%string ["Ropa"]%string
     = filtrado_principal df_ejemplo (d 2025 6 2, d 2025 6 5)
         ["Norte"]%string ["Ropa"]%string.
Proof.
  assert (H3 : ["Norte"]%string ⊆ ["Norte"; "Sur"]%string).
  { intros x Hx. apply list_elem_of_singleton in Hx as ->. left. }
  assert (H4 : ["Ropa"]%string ⊆ ["Ropa"; "Hogar"]%string).
  { intros x Hx. apply list_elem_of_singleton in Hx as ->. left. }
  split; [reflexivity |]. split; [reflexivity |].
  split; [exact H3 |]. split; [exact H4 |].
  exact (proj1 (filtrado_mas_estrecho df_ejemplo (d 2025 6 2, d 2025 6 5)
                  rango_ejemplo ["Norte"]%string ["Norte"; "Sur"]%string
                  ["Ropa"]%string ["Ropa"; "Hogar"]%string _
                  eq_refl eq_refl H3 H4 eq_refl)).
Defined.

Lemma kpis_sin_periodo_anterior_witness :
  "Periodo anterior"%string <> "Sin comparación"%string
  /\ exists k,
       kpis df_ejemplo df_ejemplo (d 2024 6 1, d 2024 6 10) "Periodo anterior"
       = Ok k
       /\ prev_df k = Some []
       /\ pct_tot k = VFloat nan.
Proof.
  assert (H1 : "Periodo anterior"%string <> "Sin comparación"%string)
    by discriminate.
  split; [exact H1 |].
  destruct (kpis_sin_periodo_anterior df_ejemplo df_ejemplo
              (d 2024 6 1, d 2024 6 10) "Periodo anterior" H1)
    as (k & Hk & Hp & _ & _ & _ & Ht & _).
  - intros x Hx. unfold df_ejemplo, DataFrame_of_rows, filas_ejemplo in Hx.
    cbn [List.length seq combine] in Hx.
    repeat (apply elem_of_cons in Hx as [-> | Hx]; [reflexivity |]).
    inversion Hx.
  - exists k. split_and!; assumption.
Defined.

Lemma primera_vista_witness :
  sidebar_inicial df_ejemplo
  = Some ((d 2024 6 5, d 2025 6 9), ["Norte"; "Sur"]%string,
          ["Ropa"; "Hogar"]%string, "Periodo anterior"%string)
  /\ exists k,
       dashboard df_ejemplo (d 2024 6 5, d 2025 6 9) ["Norte"; "Sur"]%string
         ["Ropa"; "Hogar"]%string "Periodo anterior" = Ok (df_ejemplo, k)
       /\ prev_df k = Some [].
Proof.
  assert (H : sidebar_inicial df_ejemplo
              = Some ((d 2024 6 5, d 2025 6 9), ["Norte"; "Sur"]%string,
                      ["Ropa"; "Hogar"]%string, "Periodo anterior"%string))
    by reflexivity.
  split; [exact H |].
  destruct (primera_vista df_ejemplo _ _ _ _ H) as (k & Hk & Hp & _).
  exists k. split; assumption.
Defined.

Lemma valid_binary_110 : valid_binary prec emax (of_Z 110) = true.
Proof. reflexivity. Defined.

Lemma positivo_finito_100 : positivo_finito (of_Z 100).
Proof. split; [reflexivity |]. eexists. eexists. reflexivity. Defined.

Lemma delta_pct_signo_float_witness :
  valid_binary prec emax (of_Z 110) = true /\ positivo_finito (of_Z 100)
  /\ exists f,
       delta_pct (VFloat (of_Z 110)) (VFloat (of_Z 100)) = Ok (VFloat f)
       /\ (leb (of_Z 100) (of_Z 110) = true -> leb zero f = true).
Proof.
  split; [exact valid_binary_110 | split; [exact positivo_finito_100 |]].
  destruct (delta_pct_signo_float (of_Z 110) (of_Z 100)
              valid_binary_110 positivo_finito_100) as (f & Hf & Hup & _).
  exists f. split; assumption.
Defined.

Lemma delta_pct_signo_int_witness :
  (- 2 ^ 63 <= 90 < 2 ^ 63) /\ (0 < 100 < 2 ^ 63)
  /\ exists f,
       delta_pct (VInt 90) (VInt 100) = Ok (VFloat f)
       /\ (90 <= 100 -> leb f zero = true).
Proof.
  assert (H1 : - 2 ^ 63 <= 90 < 2 ^ 63) by lia.
  assert (H2 : 0 < 100 < 2 ^ 63) by lia.
  split; [exact H1 | split; [exact H2 |]].
  destruct (delta_pct_signo_int 90 100 H1 H2) as (f & Hf & _ & Hdown).
  exists f. split; assumption.
Defined.

Lemma badge_subida_witness :
  valid_binary prec emax (of_Z 110) = true /\ positivo_finito (of_Z 100)
  /\ leb (of_Z 100) (of_Z 110) = true
  /\ exists f,
       delta_pct (VFloat (of_Z 110)) (VFloat (of_Z 100)) = Ok (VFloat f)
       /\ badge (VFloat f)
          = Ok ("<span style='color:#16a34a;font-size:0.85rem;'>▲ "
                ++ format_f "," "." f 1 ++ "%</span>")%string.
Proof.
  split; [exact valid_binary_110 |].
  split; [exact positivo_finito_100 |]. split; [reflexivity |].
  exact (badge_subida (of_Z 110) (of_Z 100)
           valid_binary_110 positivo_finito_100 eq_refl).
Defined.

Example badge_ejemplo :
  badge (VFloat (of_Z 10))
  = Ok "<span style='color:#16a34a;font-size:0.85rem;'>▲ 10.0%</span>"%string
  /\ badge (VFloat (binary_normalize prec emax (-1) (-5) false))
     = Ok "<span style='color:#dc2626;font-size:0.85rem;'>▼ -0.0%</span>"%string
  /\ badge (VFloat nan) = Ok "<span style='color:#9ca3af'>n/d</span>"%string.
Proof. split_and!; reflexivity. Qed.

Lemma tarjetas_ok_witness :
  Z.of_nat (List.length df_ejemplo) < 2 ^ 63
  /\ exists c1 c2 c3,
       tarjetas df_ejemplo df_ejemplo rango_ejemplo "Periodo anterior"
       = Ok [c1; c2; c3].
Proof.
  assert (H : Z.of_nat (List.length df_ejemplo) < 2 ^ 63) by reflexivity.
  split; [exact H |].
  exact (tarjetas_ok df_ejemplo df_ejemplo rango_ejemplo "Periodo anterior" H).
Defined.

Lemma tabla_detalle_orden_witness :
  Forall (fun x => 0 <= year (dt_date (Fecha (snd x))) < 10000) df_ejemplo
  /\ exists t, tabla_detalle df_ejemplo = Ok t /\ map fst t = index df_ejemplo.
Proof.
  assert (H : Forall (fun x => 0 <= year (dt_date (Fecha (snd x))) < 10000)
                df_ejemplo).
  { repeat constructor; vm_compute; discriminate. }
  split; [exact H |].
  destruct (tabla_detalle_orden df_ejemplo H) as (t & Ht & Hi & _).
  exists t. split; assumption.
Defined.

Example tabla_detalle_ejemplo :
  tabla_detalle [(0%nat, mkRow (to_datetime (d 2025 6 3)) "Ropa" "Norte"
                          (binary_normalize prec emax 2469 (-1) false))]
  = Ok [(0%nat, mkFilaTabla "2025-06-03" "Ropa" "Norte" "$1.234,50")].
Proof. reflexivity. Qed.

Lemma fechas_ida_y_vuelta_witness :
  valid (d 2025 6 1)
  /\ dt_date (to_datetime (d 2025 6 1)) = d 2025 6 1.
Proof.
  split; [exact valid_2025_06_01 |].
  exact (proj1 (fechas_ida_y_vuelta (d 2025 6 1) 0 valid_2025_06_01)).
Defined.

(** ** Inverted ranges and split selections *)

(** X19: In mode "Periodo anterior" an inverted range empties both sides: the
    prior window is empty as well, and all three deltas are NaN. *)
Theorem rango_invertido_dias (df_full : DataFrame) (rango : date * date)
    (regiones categorias : list string) :
  valid (fst rango) -> valid (snd rango) ->
  date_leb (fst rango) (snd rango) = false ->
  exists k,
    dashboard df_full rango regiones categorias "Periodo anterior"
    = Ok ([], k)
    /\ prev_df k = Some []
    /\ pct_tot k = VFloat nan
    /\ pct_avg k = VFloat nan
    /\ pct_cnt k = VFloat nan.
Proof.
  intros Hs He Hinv.
  assert (Hf : filtrado_principal df_full rango regiones categorias = Ok []).
  { rewrite filtrado_principal_filter. f_equal. apply filter_none.
    intros x. apply incluido_b_inverted, Hinv. }
  destruct (kpis_sin_periodo_anterior_lema df_full [] rango "Periodo anterior")
    as (k & Hk & Hp & _ & _ & _ & H1 & H2 & H3).
  - discriminate.
  - intros x _. cbn [String.eqb Ascii.eqb Bool.eqb].
    unfold ventana_anterior, en_ventana.
    cbn [String.eqb Ascii.eqb Bool.eqb fst snd].
    rewrite (date_leb_toordinal _ _ Hs He) in Hinv. apply Z.leb_gt in Hinv.
    unfold to_datetime, sub_days, days_between.
    destruct (Z.leb_spec
                (toordinal (fst rango) - 1
                 - (toordinal (snd rango) - toordinal (fst rango) + 1 - 1))
                (Fecha (snd x))); [| reflexivity].
    cbn [andb]. apply Z.leb_gt. lia.
  - exists k. unfold dashboard. rewrite Hf. cbn [bind]. rewrite Hk.
    cbn [bind]. split_and!; auto.
Qed.

Lemma filter_length_split {A} (p q1 q2 : A -> bool) (l : list A) :
  (forall x, p x = q1 x || q2 x) ->
  (forall x, q1 x = true -> q2 x = false) ->
  List.length (List.filter p l)
  = (List.length (List.filter q1 l) + List.length (List.filter q2 l))%nat.
Proof.
  intros Hp Hq. induction l as [| x l IH]; cbn; [reflexivity |].
  rewrite (Hp x). destruct (q1 x) eqn:E1.
  - rewrite (Hq x E1). cbn. lia.
  - destruct (q2 x); cbn; lia.
Qed.

(** X20: Counts add up over a split of the categories: selecting two groups of
    categories with nothing in common keeps as many rows as the two groups
    keep when selected apart, and a row is kept iff one of them keeps it. *)
Theorem recuento_por_categorias (df_full : DataFrame) (rango : date * date)
    (regiones cs1 cs2 : list string) :
  (forall c, c ∈ cs1 -> c ∉ cs2) ->
  exists df1 df2 df12,
    filtrado_principal df_full rango regiones cs1 = Ok df1
    /\ filtrado_principal df_full rango regiones cs2 = Ok df2
    /\ filtrado_principal df_full rango regiones (cs1 ++ cs2) = Ok df12
    /\ List.length df12 = (List.length df1 + List.length df2)%nat
    /\ forall x, x ∈ df12 <-> x ∈ df1 \/ x ∈ df2.
Proof.
  intros Hdis. rewrite !filtrado_principal_filter.
  do 3 eexists. split_and!; try reflexivity.
  - apply filter_length_split.
    + intros x. unfold incluido_b.
      destruct (date_leb (fst rango) (dt_date (Fecha (snd x)))
                && date_leb (dt_date (Fecha (snd x))) (snd rango)
                && bool_decide (Región (snd x) ∈ regiones)); cbn [andb];
        [| reflexivity].
      destruct (bool_decide (Categoría (snd x) ∈ cs1)) eqn:E1,
               (bool_decide (Categoría (snd x) ∈ cs2)) eqn:E2;
        [apply bool_decide_eq_true | apply bool_decide_eq_true
        | apply bool_decide_eq_true | apply bool_decide_eq_false];
        try apply bool_decide_eq_true in E1;
        try apply bool_decide_eq_true in E2;
        try apply bool_decide_eq_false in E1;
        try apply bool_decide_eq_false in E2;
        rewrite elem_of_app; tauto.
    + intros x. unfold incluido_b. rewrite !andb_true_iff, andb_false_iff.
      rewrite !bool_decide_eq_true, bool_decide_eq_false.
      intros [_ H]. right. apply Hdis, H.
  - intros x. rewrite !elem_of_filter, !incluido_b_true. unfold incluido.
    rewrite elem_of_app. tauto.
Qed.

Lemma rango_invertido_dias_witness :
  valid (d 2025 6 10) /\ valid (d 2025 6 1)
  /\ date_leb (d 2025 6 10) (d 2025 6 1) = false
  /\ exists k,
       dashboard df_ejemplo (d 2025 6 10, d 2025 6 1) ["Norte"]%string
         ["Ropa"]%string "Periodo anterior" = Ok ([], k)
       /\ prev_df k = Some [].
Proof.
  split; [exact valid_2025_06_10 |]. split; [exact valid_2025_06_01 |].
  split; [reflexivity |].
  destruct (rango_invertido_dias df_ejemplo (d 2025 6 10, d 2025 6 1)
              ["Norte"]%string ["Ropa"]%string
              valid_2025_06_10 valid_2025_06_01 eq_refl)
    as (k & Hk & Hp & _).
  exists k. split; assumption.
Defined.

(** In mode "anio" an inverted range can still have a prior window: the
    29th and the 28th of February both fall on the 28th a year before. *)
Example rango_invertido_anio :
  date_leb (d 2024 2 29) (d 2024 2 28) = false
  /\ ventana_anterior (d 2024 2 29, d 2024 2 28) "anio"
     = (to_datetime (d 2023 2 28), to_datetime (d 2023 2 28)).
Proof. split; reflexivity. Qed.

Lemma recuento_por_categorias_witness :
  (forall c, c ∈ ["Ropa"]%string -> c ∉ ["Hogar"]%string)
  /\ exists df1 df2 df12,
       filtrado_principal df_ejemplo rango_ejemplo ["Norte"]%string
         ["Ropa"]%string = Ok df1
       /\ filtrado_principal df_ejemplo rango_ejemplo ["Norte"]%string
            ["Hogar"]%string = Ok df2
       /\ filtrado_principal df_ejemplo rango_ejemplo ["Norte"]%string
            (["Ropa"%string] ++ ["Hogar"%string]) = Ok df12
       /\ List.length df12 = (List.length df1 + List.length df2)%nat.
Proof.
  assert (H : forall c, c ∈ ["Ropa"]%string -> c ∉ ["Hogar"]%string).
  { intros c Hc Hc'. apply list_elem_of_singleton in Hc.
    apply list_elem_of_singleton in Hc'. subst c. discriminate. }
  split; [exact H |].
  destruct (recuento_por_categorias df_ejemplo rango_ejemplo ["Norte"]%string
              ["Ropa"]%string ["Hogar"]%string H)
    as (df1 & df2 & df12 & H1 & H2 & H3 & H4 & _).
  exists df1, df2, df12. split_and!; assumption.
Defined.
